(** * use-clipboard: the transition sequence of the [useClipboard] hook

    A shallow embedding of [src/index.tsx] (the hook's source, reproduced
    after the package documentation in [src/README.md]).

    Conventions of the embedding.
    - A JavaScript [number] used as a duration is an integer number of
      milliseconds, a [Z]; negative values are allowed, as the source does
      not validate them.
    - An optional property ([entering?: number], [text?: Text]) is an
      [option]; [None] is [undefined].
    - The [while] loop of [getTransitionStatus] is a fixpoint on a fuel
      argument that counts evaluations of the loop condition; [None] is a
      run that has not returned within the fuel.
    - The hook is a record of what React keeps between renders (the state,
      the memoized values with the dependencies they were computed from, the
      pending timer) together with two logs of what the outside sees (the
      texts handed to [navigator.clipboard.writeText], the number of
      [setTimeout] calls).
    - [step] takes a call of [writeText] together with the settlement of
      the clipboard write it awaits, as when nothing happens in between;
      [moment] takes them apart, with the writes that are still pending, so
      that renders, timers and other calls come between the two. *)

From Stdlib Require Import ZArith List String Bool Lia DecimalString.
From Stdlib Require Import DecimalPos DecimalZ.
Import ListNotations.
Local Open Scope string_scope.
Local Open Scope Z_scope.

(** ** Data model *)

(** [type CopyStatus = 'idle' | 'resolved' | 'rejected'] *)
Inductive CopyStatus : Set := idle | resolved | rejected.

(** [type TransitionStatus = 'entering' | 'entered' | 'exiting' | 'exited'] *)
Inductive TransitionStatus : Set := entering | entered | exiting | exited.

(** [type SequenceStatus = Exclude<TransitionStatus, 'exited'>] *)
Inductive SequenceStatus : Set := seq_entering | seq_entered | seq_exiting.

Definition of_sequence (k : SequenceStatus) : TransitionStatus :=
  match k with
  | seq_entering => entering
  | seq_entered => entered
  | seq_exiting => exiting
  end.

(** The narrowing that [status !== 'exited'] performs on a
    [TransitionStatus]: [None] when the status is ['exited']. *)
Definition narrow (s : TransitionStatus) : option SequenceStatus :=
  match s with
  | entering => Some seq_entering
  | entered => Some seq_entered
  | exiting => Some seq_exiting
  | exited => None
  end.

(** The mapped types [{ [S in SequenceStatus]: A }]. *)
Record PerStatus (A : Type) : Type := mkPerStatus {
  on_entering : A;
  on_entered : A;
  on_exiting : A
}.
Arguments mkPerStatus {A} _ _ _.
Arguments on_entering {A} _.
Arguments on_entered {A} _.
Arguments on_exiting {A} _.

(** Property access [table[status]]. *)
Definition get {A : Type} (table : PerStatus A) (k : SequenceStatus) : A :=
  match k with
  | seq_entering => on_entering table
  | seq_entered => on_entered table
  | seq_exiting => on_exiting table
  end.

(** [type SequenceTimeout = { [S in SequenceStatus]?: number }] *)
Definition SequenceTimeout : Type := PerStatus (option Z).

(** [type Text = string | number] *)
Inductive Text : Type :=
| TextString (s : string)
| TextNumber (n : Z).

(** [timeout?: number | SequenceTimeout] *)
Inductive Timeout : Type :=
| TimeoutNumber (n : Z)
| TimeoutSequence (t : SequenceTimeout).

Record UseClipboardOptions : Type := mkOptions {
  text : option Text;
  timeout : option Timeout
}.

(** The value caught by [catch (error)]. *)
Definition Error : Type := string.

Record StatusState : Type := mkStatusState {
  copyStatus : CopyStatus;
  transitionStatus : TransitionStatus
}.

(** [interface UseClipboardState extends StatusState { error: null | Error }] *)
Record UseClipboardState : Type := mkState {
  error : option Error;
  status : StatusState
}.

(** [type Durations = { [S in SequenceStatus]: number }] *)
Definition Durations : Type := PerStatus Z.

Definition defaultDurations : Durations := mkPerStatus 0 0 0.

(** [type NextStatusStates = { [S in SequenceStatus]: StatusState }] *)
Definition NextStatusStates : Type := PerStatus StatusState.

Definition nextStatuses (s : TransitionStatus) : TransitionStatus :=
  match s with
  | exited => entering
  | entering => entered
  | entered => exiting
  | exiting => exited
  end.

Definition defaultNextStatusStates : NextStatusStates :=
  mkPerStatus
    (mkStatusState resolved entered)
    (mkStatusState resolved exiting)
    (mkStatusState idle exited).

(** ** [getTransitionStatus] *)

(** The loop
    [while (status !== 'exited' && duration <= 0) {
       duration = durations[status]
       if (duration <= 0) status = nextStatusStates[status].transitionStatus }]
    on its two variables. *)
Fixpoint getTransitionStatus_loop (fuel : nat) (nextStatusStates : NextStatusStates)
    (durations : Durations) (status : TransitionStatus) (duration : Z)
    : option TransitionStatus :=
  match fuel with
  | O => None
  | S fuel' =>
    match narrow status with
    | None => Some status
    | Some k =>
      if duration <=? 0 then
        let duration' := get durations k in
        if duration' <=? 0
        then getTransitionStatus_loop fuel' nextStatusStates durations
               (transitionStatus (get nextStatusStates k)) duration'
        else getTransitionStatus_loop fuel' nextStatusStates durations
               status duration'
      else Some status
    end
  end.

Definition getTransitionStatus (fuel : nat) (transitionStatus : TransitionStatus)
    (nextStatusStates : NextStatusStates) (durations : Durations)
    : option TransitionStatus :=
  getTransitionStatus_loop fuel nextStatusStates durations transitionStatus 0.

Definition defaultState : UseClipboardState :=
  mkState None (mkStatusState idle exited).

(** ** The memoized values of [useClipboard] *)

(** What a template literal or [toString()] prints for an integer: its
    decimal digits.  That is what the code prints for a safe integer (see
    [safe_integer]); past [Number.MAX_SAFE_INTEGER] the code prints the
    digits of the nearest double, and from 1e21 on an exponent form
    ([1e+21]), neither of which is modelled. *)
Definition Number_toString (n : Z) : string :=
  NilZero.string_of_int (Z.to_int n).

(** [`${v}`] for an optional number. *)
Definition interpolate (v : option Z) : string :=
  match v with
  | Some n => Number_toString n
  | None => "undefined"
  end.

(** [v ?? d] *)
Definition nullish {A : Type} (v : option A) (d : A) : A :=
  match v with
  | Some a => a
  | None => d
  end.

(** The values [hasTimeoutChange] takes: [undefined], a number or a string. *)
Inductive Fingerprint : Type :=
| FpUndefined
| FpNumber (n : Z)
| FpString (s : string).

(** [Object.is], by which React compares dependencies. *)
Definition Fingerprint_is (a b : Fingerprint) : bool :=
  match a, b with
  | FpUndefined, FpUndefined => true
  | FpNumber n, FpNumber m => Z.eqb n m
  | FpString s, FpString t => String.eqb s t
  | _, _ => false
  end.

Definition Text_is (a b : option Text) : bool :=
  match a, b with
  | None, None => true
  | Some (TextString s), Some (TextString t) => String.eqb s t
  | Some (TextNumber n), Some (TextNumber m) => Z.eqb n m
  | _, _ => false
  end.

(** [typeof timeout === 'object'
      ? `${timeout['entering']}${timeout['entered']}${timeout['exiting']}`
      : timeout] *)
Definition hasTimeoutChange (timeout : option Timeout) : Fingerprint :=
  match timeout with
  | Some (TimeoutSequence t) =>
      FpString (interpolate (on_entering t) ++ interpolate (on_entered t)
                ++ interpolate (on_exiting t))
  | Some (TimeoutNumber n) => FpNumber n
  | None => FpUndefined
  end.

(** [typeof options.timeout === 'object'
      ? { entering: options.timeout?.entering ?? 0, ... }
      : { ...defaultDurations, entered: options.timeout ?? 0 }] *)
Definition durations (timeout : option Timeout) : Durations :=
  match timeout with
  | Some (TimeoutSequence t) =>
      mkPerStatus (nullish (on_entering t) 0) (nullish (on_entered t) 0)
                  (nullish (on_exiting t) 0)
  | Some (TimeoutNumber n) =>
      mkPerStatus (on_entering defaultDurations) (nullish (Some n) 0)
                  (on_exiting defaultDurations)
  | None =>
      mkPerStatus (on_entering defaultDurations) (nullish None 0)
                  (on_exiting defaultDurations)
  end.

(** [typeof options.timeout === 'object'
      ? defaultNextStatusStates
      : { ...defaultNextStatusStates,
          entered: { copyStatus: 'idle', transitionStatus: 'exited' } }] *)
Definition nextStatusStates (timeout : option Timeout) : NextStatusStates :=
  match timeout with
  | Some (TimeoutSequence _) => defaultNextStatusStates
  | _ =>
      mkPerStatus (on_entering defaultNextStatusStates)
                  (mkStatusState idle exited)
                  (on_exiting defaultNextStatusStates)
  end.

(** ** [writeText] *)

(** The variables the [writeText] callback closes over.  [useCallback] keeps
    the callback of an earlier render as long as [options.text],
    [nextStatusStates] and [durations] are unchanged; [state] is not among the
    dependencies, so the callback reads the state of the render that created
    it. *)
Record WriteTextClosure : Type := mkClosure {
  closure_state : UseClipboardState;
  closure_text : option Text;
  closure_nextStatusStates : NextStatusStates;
  closure_durations : Durations
}.

(** [text?: Text | React.SyntheticEvent] *)
Inductive WriteTextArg : Type :=
| ArgUndefined
| ArgText (t : Text)
| ArgEvent.

(** How a promise settles. *)
Inductive Settled : Type :=
| Fulfilled
| RejectedWith (e : Error).

Definition Text_toString (t : Text) : string :=
  match t with
  | TextString s => s
  | TextNumber n => Number_toString n
  end.

(** [a || b] on strings: the empty string is falsy. *)
Definition or_else (a b : string) : string :=
  if String.eqb a EmptyString then b else a.

(** [typeof text === 'string' || typeof text === 'number'
      ? text.toString()
      : options.text?.toString() || ''] *)
Definition clipboardText (arg : WriteTextArg) (options_text : option Text) : string :=
  match arg with
  | ArgText t => Text_toString t
  | _ =>
    match options_text with
    | Some t => or_else (Text_toString t) EmptyString
    | None => EmptyString
    end
  end.

(** What one call of [writeText] does: the argument of the call to
    [navigator.clipboard.writeText] if it is made, the argument of the call
    to [safeSetState] if it is made, and how the returned promise settles. *)
Record WriteTextRun : Type := mkRun {
  run_written : option string;
  run_setState : option UseClipboardState;
  run_promise : Settled
}.

(** Evaluations of the loop condition granted to [getTransitionStatus] inside
    the hook: three statuses can be skipped, the fourth evaluation returns
    (see [getTransitionStatus_fuel_complete]). *)
Definition enough_fuel : nat := 4.

(** The body of [writeText], given how the awaited
    [navigator.clipboard.writeText] settles. *)
Definition writeText (c : WriteTextClosure) (arg : WriteTextArg)
    (clipboard_writeText : Settled) : option WriteTextRun :=
  match narrow (transitionStatus (status (closure_state c))) with
  | Some _ => Some (mkRun None None Fulfilled)
  | None =>
    let clipboardText := clipboardText arg (closure_text c) in
    if String.eqb clipboardText EmptyString then Some (mkRun None None Fulfilled)
    else
      match clipboard_writeText with
      | RejectedWith e =>
          Some (mkRun (Some clipboardText)
                  (Some (mkState (Some e) (mkStatusState rejected exited)))
                  Fulfilled)
      | Fulfilled =>
        match getTransitionStatus enough_fuel
                (nextStatuses (transitionStatus (status (closure_state c))))
                (closure_nextStatusStates c) (closure_durations c) with
        | None => None
        | Some transitionStatus =>
          match narrow transitionStatus with
          | None => Some (mkRun (Some clipboardText) None Fulfilled)
          | Some _ =>
              Some (mkRun (Some clipboardText)
                      (Some (mkState None (mkStatusState resolved transitionStatus)))
                      Fulfilled)
          end
        end
      end
  end.

(** ** The hook between renders *)

(** A pending [setTimeout]: its delay and the two variables its callback
    closes over. *)
Record Timer : Type := mkTimer {
  timer_id : nat;
  timer_delay : Z;
  timer_status : SequenceStatus;
  timer_nextStatusStates : NextStatusStates
}.

Record Hook : Type := mkHook {
  (** [mounted.current] of [useSafeSetState] *)
  mounted : bool;
  (** the options of the last render *)
  options : UseClipboardOptions;
  (** the state of the last render, which [status] and [error] expose *)
  state : UseClipboardState;
  memo_hasTimeoutChange : Fingerprint;
  memo_durations : Durations;
  memo_nextStatusStates : NextStatusStates;
  memo_writeText : WriteTextClosure;
  (** the timer of the last run of the effect, if still pending *)
  timeoutId : option Timer;
  (** a state update the effect has requested and React has not applied yet *)
  queued : option UseClipboardState;
  (** how many times [setTimeout] has been called *)
  timeouts : nat;
  (** the texts handed to [navigator.clipboard.writeText], latest first *)
  clipboard : list string
}.

(** The effect: the cleanup of its previous run, then its body. *)
Definition effect (h : Hook) : option Hook :=
  match narrow (transitionStatus (status (state h))) with
  | None =>
      Some (mkHook (mounted h) (options h) (state h) (memo_hasTimeoutChange h)
              (memo_durations h) (memo_nextStatusStates h) (memo_writeText h)
              None (queued h) (timeouts h) (clipboard h))
  | Some _ =>
    match getTransitionStatus enough_fuel (transitionStatus (status (state h)))
            (memo_nextStatusStates h) (memo_durations h) with
    | None => None
    | Some transitionStatus =>
      match narrow transitionStatus with
      | None =>
          Some (mkHook (mounted h) (options h) (state h) (memo_hasTimeoutChange h)
                  (memo_durations h) (memo_nextStatusStates h) (memo_writeText h)
                  None (if mounted h then Some defaultState else queued h)
                  (timeouts h) (clipboard h))
      | Some k =>
          Some (mkHook (mounted h) (options h) (state h) (memo_hasTimeoutChange h)
                  (memo_durations h) (memo_nextStatusStates h) (memo_writeText h)
                  (Some (mkTimer (timeouts h) (get (memo_durations h) k) k
                           (memo_nextStatusStates h)))
                  (queued h) (S (timeouts h)) (clipboard h))
      end
    end
  end.

(** The memoized values of one render with the options [options'].
    [durations] and [nextStatusStates] are recomputed when [hasTimeoutChange]
    differs from that of the previous render, [writeText] when one of
    [options.text], [nextStatusStates], [durations] does. *)
Definition useMemos (options' : UseClipboardOptions) (h : Hook) : Hook :=
  let fp := hasTimeoutChange (timeout options') in
  let changed := negb (Fingerprint_is fp (memo_hasTimeoutChange h)) in
  let d := if changed then durations (timeout options') else memo_durations h in
  let n := if changed then nextStatusStates (timeout options')
           else memo_nextStatusStates h in
  let w := if changed || negb (Text_is (text options') (closure_text (memo_writeText h)))
           then mkClosure (state h) (text options') n d
           else memo_writeText h in
  mkHook (mounted h) options' (state h) fp d n w
    (timeoutId h) (queued h) (timeouts h) (clipboard h).

(** One render with the options [options'].  The effect runs again when one
    of its dependencies [state], [nextStatusStates], [durations] has
    changed. *)
Definition render (options' : UseClipboardOptions) (stateChanged : bool)
    (h : Hook) : option Hook :=
  let changed := negb (Fingerprint_is (hasTimeoutChange (timeout options'))
                         (memo_hasTimeoutChange h)) in
  if stateChanged || changed
  then effect (useMemos options' h)
  else Some (useMemos options' h).

(** The first render: every memoized value is computed, the layout effect
    sets [mounted.current], the effect runs. *)
Definition mount (o : UseClipboardOptions) : option Hook :=
  let d := durations (timeout o) in
  let n := nextStatusStates (timeout o) in
  effect (mkHook true o defaultState (hasTimeoutChange (timeout o)) d n
            (mkClosure defaultState (text o) n d) None None O []).

(** [safeSetState(action)] with a fresh object: when mounted, the state is
    replaced and the component renders again with its current options. *)
Definition safeSetState (action : UseClipboardState) (h : Hook) : option Hook :=
  if mounted h
  then render (options h) true
         (mkHook (mounted h) (options h) action (memo_hasTimeoutChange h)
            (memo_durations h) (memo_nextStatusStates h) (memo_writeText h)
            (timeoutId h) (queued h) (timeouts h) (clipboard h))
  else Some h.

(** The events of a hook's life after it has mounted. *)
Inductive Event : Type :=
| CallWriteText (arg : WriteTextArg) (clipboard_writeText : Settled)
| TimeoutFires
| StateUpdate
| Rerender (options' : UseClipboardOptions)
| Unmount.

(** [None] when the event cannot happen in [h] (or when a loop does not
    return).  React applies an update requested by the effect before it
    handles any other event.  [CallWriteText arg w] is a call of [writeText]
    whose clipboard write settles as [w] before anything else happens; a
    write that is still pending while other events happen is a [Call]
    followed later by a [Settle] of [moment]. *)
Definition step (ev : Event) (h : Hook) : option Hook :=
  match queued h with
  | Some action =>
    match ev with
    | StateUpdate =>
        safeSetState action
          (mkHook (mounted h) (options h) (state h) (memo_hasTimeoutChange h)
             (memo_durations h) (memo_nextStatusStates h) (memo_writeText h)
             (timeoutId h) None (timeouts h) (clipboard h))
    | _ => None
    end
  | None =>
    match ev with
    | CallWriteText arg clipboard_writeText =>
      match writeText (memo_writeText h) arg clipboard_writeText with
      | None => None
      | Some run =>
        let h1 := mkHook (mounted h) (options h) (state h) (memo_hasTimeoutChange h)
                    (memo_durations h) (memo_nextStatusStates h) (memo_writeText h)
                    (timeoutId h) (queued h) (timeouts h)
                    (match run_written run with
                     | Some t => t :: clipboard h
                     | None => clipboard h
                     end) in
        match run_setState run with
        | Some action => safeSetState action h1
        | None => Some h1
        end
      end
    | TimeoutFires =>
      match timeoutId h with
      | None => None
      | Some t =>
        let nextStatusState := get (timer_nextStatusStates t) (timer_status t) in
        safeSetState
          (mkState None
             (mkStatusState (copyStatus nextStatusState)
                (transitionStatus nextStatusState)))
          (mkHook (mounted h) (options h) (state h) (memo_hasTimeoutChange h)
             (memo_durations h) (memo_nextStatusStates h) (memo_writeText h)
             None (queued h) (timeouts h) (clipboard h))
      end
    | StateUpdate => None
    | Rerender options' =>
        if mounted h then render options' false h else None
    | Unmount =>
        if mounted h
        then Some (mkHook false (options h) (state h) (memo_hasTimeoutChange h)
                     (memo_durations h) (memo_nextStatusStates h) (memo_writeText h)
                     None (queued h) (timeouts h) (clipboard h))
        else None
    end
  end.

(** The hooks a component can find itself with. *)
Inductive reachable : Hook -> Prop :=
| reachable_mount (o : UseClipboardOptions) (h : Hook) :
    mount o = Some h -> reachable h
| reachable_step (ev : Event) (h h' : Hook) :
    reachable h -> step ev h = Some h' -> reachable h'.

(** Several events in a row. *)
Fixpoint run (evs : list Event) (h : Hook) : option Hook :=
  match evs with
  | [] => Some h
  | ev :: evs' =>
    match step ev h with
    | Some h' => run evs' h'
    | None => None
    end
  end.

(** ** The specification's vocabulary *)

(** A status a caller may be shown: ['exited'], or a status whose configured
    duration is strictly positive. *)
Definition observable (d : Durations) (s : TransitionStatus) : Prop :=
  match narrow s with
  | None => True
  | Some k => 0 < get d k
  end.

(** The phase component of [nextPhaseMap[phase]]; ['exited'] has no
    successor in the map. *)
Definition follow (n : NextStatusStates) (s : TransitionStatus) : TransitionStatus :=
  match narrow s with
  | None => s
  | Some k => transitionStatus (get n k)
  end.

(** [skipZeroDurations] as the specification words it: [r] is the first
    phase, among those met by following the map from [start], that is
    ['exited'] or has a strictly positive duration. *)
Definition spec_skipZeroDurations (n : NextStatusStates) (d : Durations)
    (start r : TransitionStatus) : Prop :=
  exists k : nat,
    Nat.iter k (follow n) start = r /\
    observable d r /\
    forall j : nat, (j < k)%nat -> ~ observable d (Nat.iter j (follow n) start).

(** The Sequence variant of the next-phase map, as the specification lists it. *)
Definition spec_sequenceMap : NextStatusStates :=
  mkPerStatus (mkStatusState resolved entered)
              (mkStatusState resolved exiting)
              (mkStatusState idle exited).

(** The Simple variant: the Sequence variant except that [entered] maps to
    [(idle, exited)]. *)
Definition spec_simpleMap : NextStatusStates :=
  mkPerStatus (on_entering spec_sequenceMap)
              (mkStatusState idle exited)
              (on_exiting spec_sequenceMap).

(** The two next-phase maps the hook ever builds. *)
Definition variant (n : NextStatusStates) : Prop :=
  n = spec_sequenceMap \/ n = spec_simpleMap.

(** The resolved triple [(entering, entered, exiting)] of a configuration. *)
Definition resolved_triple (t : option Timeout) : Z * Z * Z :=
  (on_entering (durations t), on_entered (durations t), on_exiting (durations t)).

(** A configuration that is not a per-phase map: a number, or absent. *)
Definition not_object (t : option Timeout) : Prop :=
  match t with
  | Some (TimeoutSequence _) => False
  | _ => True
  end.

(** What holds of every hook between two events. *)
Record Hook_ok (h : Hook) : Prop := mkHook_ok {
  ok_fingerprint : memo_hasTimeoutChange h = hasTimeoutChange (timeout (options h));
  ok_nextStatusStates : variant (memo_nextStatusStates h);
  ok_closure_text : closure_text (memo_writeText h) = text (options h);
  ok_closure_nextStatusStates :
    closure_nextStatusStates (memo_writeText h) = memo_nextStatusStates h;
  ok_closure_durations : closure_durations (memo_writeText h) = memo_durations h;
  ok_timer : forall t, timeoutId h = Some t ->
    timer_nextStatusStates t = memo_nextStatusStates h /\
    timer_delay t = get (memo_durations h) (timer_status t) /\
    0 < timer_delay t;
  ok_queued : forall s, queued h = Some s -> s = defaultState /\ mounted h = true
}.

(** The pairing the specification gives the copy status and the error. *)
Definition State_ok (s : UseClipboardState) : Prop :=
  (copyStatus (status s) = rejected -> transitionStatus (status s) = exited) /\
  (error s <> None -> copyStatus (status s) = rejected).

(** A hook at rest whose [writeText] callback is past its guard. *)
Definition at_rest (h : Hook) : Prop :=
  queued h = None /\
  transitionStatus (status (state h)) = exited /\
  transitionStatus (status (closure_state (memo_writeText h))) = exited.

(** ** Scenarios *)

(** The hook after it has mounted with the options [o] and gone through the
    events [evs]. *)
Definition after (o : UseClipboardOptions) (evs : list Event) : option Hook :=
  match mount o with
  | Some h => run evs h
  | None => None
  end.

(** [useClipboard({ text: 'hi', timeout: 2000 })], as in the Simple
    Clipboard story. *)
Definition simple_options : UseClipboardOptions :=
  mkOptions (Some (TextString "hi")) (Some (TimeoutNumber 2000)).

(** [useClipboard({ text: 'hi',
      timeout: { entering: 100, entered: 0, exiting: 100 } })] *)
Definition sequence_options : UseClipboardOptions :=
  mkOptions (Some (TextString "hi"))
    (Some (TimeoutSequence (mkPerStatus (Some 100) (Some 0) (Some 100)))).

(** [useClipboard({ text: 'hi',
      timeout: { entering: 0, entered: 2000, exiting: 250 } })], as in the
    Sequence Clipboard story, which allocates the map on every render. *)
Definition story_options : UseClipboardOptions :=
  mkOptions (Some (TextString "hi"))
    (Some (TimeoutSequence (mkPerStatus (Some 0) (Some 2000) (Some 250)))).

(** [useClipboard({ text: 'hi', timeout: {} })]: every duration is 0. *)
Definition instant_options : UseClipboardOptions :=
  mkOptions (Some (TextString "hi"))
    (Some (TimeoutSequence (mkPerStatus None None None))).

(** ** The awaited write *)

(** [writeText] up to [await navigator.clipboard.writeText(clipboardText)]:
    the text handed to the clipboard, or [None] when the call returns
    before, at the guard or on an empty text. *)
Definition writeText_before_await (c : WriteTextClosure) (arg : WriteTextArg)
    : option string :=
  match narrow (transitionStatus (status (closure_state c))) with
  | Some _ => None
  | None =>
    let clipboardText := clipboardText arg (closure_text c) in
    if String.eqb clipboardText EmptyString then None else Some clipboardText
  end.

(** [writeText] from its [await] on, once the write has settled: the
    argument of the call to [safeSetState], if it is made.  The variables
    are those the callback captured when it was created. *)
Definition writeText_after_await (c : WriteTextClosure)
    (clipboard_writeText : Settled) : option (option UseClipboardState) :=
  match clipboard_writeText with
  | RejectedWith e =>
      Some (Some (mkState (Some e) (mkStatusState rejected exited)))
  | Fulfilled =>
    match getTransitionStatus enough_fuel
            (nextStatuses (transitionStatus (status (closure_state c))))
            (closure_nextStatusStates c) (closure_durations c) with
    | None => None
    | Some transitionStatus =>
      match narrow transitionStatus with
      | None => Some None
      | Some _ =>
          Some (Some (mkState None (mkStatusState resolved transitionStatus)))
      end
    end
  end.

(** The hook together with the calls of [writeText] that are suspended at
    their [await], each with the variables its callback captured, oldest
    first. *)
Record Session : Type := mkSession {
  hook : Hook;
  pending : list WriteTextClosure
}.

Inductive Moment : Type :=
| Atomic (ev : Event)
| Call (arg : WriteTextArg)
| Settle (i : nat) (clipboard_writeText : Settled).

Fixpoint remove_nth {A : Type} (i : nat) (l : list A) : list A :=
  match l, i with
  | [], _ => []
  | _ :: l', O => l'
  | a :: l', S i' => a :: remove_nth i' l'
  end.

(** [Atomic ev] is an event of [step]; [Call arg] runs the memoized
    [writeText] up to its [await]; [Settle i w] settles the [i]-th pending
    write as [w] and runs the rest of that call. *)
Definition moment (m : Moment) (s : Session) : option Session :=
  match m with
  | Atomic ev =>
    match step ev (hook s) with
    | Some h => Some (mkSession h (pending s))
    | None => None
    end
  | Call arg =>
    match queued (hook s) with
    | Some _ => None
    | None =>
      match writeText_before_await (memo_writeText (hook s)) arg with
      | None => Some s
      | Some t =>
          Some (mkSession
                  (mkHook (mounted (hook s)) (options (hook s)) (state (hook s))
                     (memo_hasTimeoutChange (hook s)) (memo_durations (hook s))
                     (memo_nextStatusStates (hook s)) (memo_writeText (hook s))
                     (timeoutId (hook s)) (queued (hook s)) (timeouts (hook s))
                     (t :: clipboard (hook s)))
                  (pending s ++ [memo_writeText (hook s)]))
      end
    end
  | Settle i w =>
    match queued (hook s) with
    | Some _ => None
    | None =>
      match nth_error (pending s) i with
      | None => None
      | Some c =>
        match writeText_after_await c w with
        | None => None
        | Some None => Some (mkSession (hook s) (remove_nth i (pending s)))
        | Some (Some action) =>
          match safeSetState action (hook s) with
          | Some h => Some (mkSession h (remove_nth i (pending s)))
          | None => None
          end
        end
      end
    end
  end.

Fixpoint play (ms : list Moment) (s : Session) : option Session :=
  match ms with
  | [] => Some s
  | m :: ms' =>
    match moment m s with
    | Some s' => play ms' s'
    | None => None
    end
  end.

(** The session after the hook has mounted with the options [o] and gone
    through the moments [ms]. *)
Definition after_moments (o : UseClipboardOptions) (ms : list Moment)
    : option Session :=
  match mount o with
  | Some h => play ms (mkSession h [])
  | None => None
  end.

(** The sessions a component can find itself in. *)
Inductive attainable : Session -> Prop :=
| attainable_mount (o : UseClipboardOptions) (h : Hook) :
    mount o = Some h -> attainable (mkSession h [])
| attainable_moment (m : Moment) (s s' : Session) :
    attainable s -> moment m s = Some s' -> attainable s'.

(** ** Numbers the model prints as the code does *)

(** [Number.isSafeInteger]: up to [Number.MAX_SAFE_INTEGER] in absolute
    value. *)
Definition safe_integer (n : Z) : Prop := Z.abs n <= 9007199254740991.

Definition Text_safe (t : option Text) : Prop :=
  match t with
  | Some (TextNumber n) => safe_integer n
  | _ => True
  end.

(** The text a call resolves is a string, or a safe integer. *)
Definition resolves_safely (arg : WriteTextArg) (options_text : option Text) : Prop :=
  match arg with
  | ArgText t => Text_safe (Some t)
  | _ => Text_safe options_text
  end.

(** ** Vocabulary of the further properties *)

(** The position of a status in the cycle
    [entering -> entered -> exiting -> exited], counted from its end. *)
Definition rank (s : TransitionStatus) : nat :=
  match s with
  | entering => 3
  | entered => 2
  | exiting => 1
  | exited => 0
  end.

(** How the pending timer and the queued update go with the state. *)
Record Hook_timing (h : Hook) : Prop := mkHook_timing {
  timing_rest : transitionStatus (status (state h)) = exited ->
    timeoutId h = None /\ queued h = None;
  timing_timer : forall t, timeoutId h = Some t ->
    mounted h = true /\ queued h = None /\
    getTransitionStatus enough_fuel (transitionStatus (status (state h)))
      (memo_nextStatusStates h) (memo_durations h)
    = Some (of_sequence (timer_status t));
  timing_queued : forall s, queued h = Some s -> timeoutId h = None;
  timing_flight : mounted h = true ->
    transitionStatus (status (state h)) <> exited ->
    timeoutId h <> None \/ queued h <> None
}.

(** Time passing with no call and no render: React applies the queued
    update if there is one, else the pending timer fires if there is one. *)
Definition advance (h : Hook) : option Hook :=
  match queued h with
  | Some _ => step StateUpdate h
  | None =>
    match timeoutId h with
    | Some _ => step TimeoutFires h
    | None => Some h
    end
  end.

Fixpoint elapse (k : nat) (h : Hook) : option Hook :=
  match k with
  | O => Some h
  | S k' =>
    match advance h with
    | Some h' => elapse k' h'
    | None => None
    end
  end.

(** An event that is not a render with other options. *)
Definition no_rerender (ev : Event) : Prop :=
  match ev with
  | Rerender _ => False
  | _ => True
  end.

(** An event that does not bring a per-phase map as timeout. *)
Definition numeric_event (ev : Event) : Prop :=
  match ev with
  | Rerender o => not_object (timeout o)
  | _ => True
  end.

(** Two per-phase maps that have at least two of their three fields in
    common. *)
Definition differ_in_one_field (t1 t2 : SequenceTimeout) : Prop :=
  (on_entering t1 = on_entering t2 /\ on_entered t1 = on_entered t2) \/
  (on_entering t1 = on_entering t2 /\ on_exiting t1 = on_exiting t2) \/
  (on_entered t1 = on_entered t2 /\ on_exiting t1 = on_exiting t2).

(** ** The indicators of the stories *)

(** [status.copy === 'resolved' ? 'copied' : 'copy'], the label of the
    button in the Simple Clipboard and Read Clipboard stories. *)
Definition SimpleClipboard_label (s : StatusState) : string :=
  match copyStatus s with
  | resolved => "copied"
  | _ => "copy"
  end.

(** [status.copy === 'resolved' && status.transition !== 'exiting'] of the
    Sequence Clipboard story, which shows the tooltip and the check mark. *)
Definition SequenceClipboard_isCopied (s : StatusState) : bool :=
  match copyStatus s, transitionStatus s with
  | resolved, exiting => false
  | resolved, _ => true
  | _, _ => false
  end.

(** [status.copy === 'idle' ? 'copy' : 'copied'], the text of the tooltip
    in the Sequence Clipboard story. *)
Definition SequenceClipboard_label (s : StatusState) : string :=
  match copyStatus s with
  | idle => "copy"
  | _ => "copied"
  end.

(** ** Properties of [getTransitionStatus] *)

(** Case analysis on every comparison of a duration with 0 in the goal. *)
Ltac split_leb :=
  repeat match goal with
         | |- context [?x <=? 0] => destruct (Z.leb_spec x 0)
         end.


Section Loop.

Variable n : NextStatusStates.
Variable d : Durations.

Lemma loop_unfold (fuel : nat) (s : TransitionStatus) (dur : Z) :
  getTransitionStatus_loop (S fuel) n d s dur =
  match narrow s with
  | None => Some s
  | Some k =>
    if dur <=? 0 then
      if get d k <=? 0
      then getTransitionStatus_loop fuel n d (transitionStatus (get n k)) (get d k)
      else getTransitionStatus_loop fuel n d s (get d k)
    else Some s
  end.
Proof. reflexivity. Qed.

Lemma loop_positive (fuel : nat) (s : TransitionStatus) (dur : Z) :
  0 < dur -> getTransitionStatus_loop (S fuel) n d s dur = Some s.
Proof.
  intros Hpos. simpl. destruct (narrow s); [|reflexivity].
  destruct (Z.leb_spec dur 0); [lia|reflexivity].
Qed.

Lemma loop_exited (fuel : nat) (dur : Z) :
  getTransitionStatus_loop (S fuel) n d exited dur = Some exited.
Proof. reflexivity. Qed.

(** Only the sign of the [duration] variable matters to the loop. *)
Lemma loop_nonpositive (fuel : nat) (s : TransitionStatus) (dur : Z) :
  dur <= 0 ->
  getTransitionStatus_loop fuel n d s dur = getTransitionStatus_loop fuel n d s 0.
Proof.
  intros Hle. destruct fuel as [|fuel]; [reflexivity|]. simpl.
  destruct (narrow s); [|reflexivity].
  destruct (Z.leb_spec dur 0); [reflexivity|lia].
Qed.

(** More fuel does not change a result. *)
Lemma loop_fuel_S (fuel : nat) :
  forall (s : TransitionStatus) (dur : Z) (r : TransitionStatus),
    getTransitionStatus_loop fuel n d s dur = Some r ->
    getTransitionStatus_loop (S fuel) n d s dur = Some r.
Proof.
  induction fuel as [|fuel IH]; intros s dur r H; [discriminate|].
  rewrite loop_unfold in H. rewrite (loop_unfold (S fuel)).
  destruct (narrow s) as [k|]; [|exact H].
  destruct (dur <=? 0); [|exact H].
  destruct (get d k <=? 0); apply IH; exact H.
Qed.

Lemma loop_fuel_add (extra fuel : nat) (s : TransitionStatus) (dur : Z)
    (r : TransitionStatus) :
  getTransitionStatus_loop fuel n d s dur = Some r ->
  getTransitionStatus_loop (extra + fuel) n d s dur = Some r.
Proof.
  intros H. induction extra as [|extra IH]; [exact H|].
  apply loop_fuel_S in IH. exact IH.
Qed.

(** Whatever the loop returns is the first observable status on the path
    from where it started. *)
Lemma loop_first_observable (fuel : nat) :
  forall (s : TransitionStatus) (dur : Z) (r : TransitionStatus),
    dur <= 0 ->
    getTransitionStatus_loop fuel n d s dur = Some r ->
    spec_skipZeroDurations n d s r.
Proof.
  induction fuel as [|fuel IH]; intros s dur r Hdur H; [discriminate|].
  rewrite loop_unfold in H.
  destruct (narrow s) as [k|] eqn:Hs.
  - destruct (Z.leb_spec dur 0) as [_|Hgt]; [|lia].
    destruct (Z.leb_spec (get d k) 0) as [Hk|Hk].
    + destruct (IH _ _ _ Hk H) as (m & Hm & Hobs & Hfirst).
      exists (S m). split; [|split].
      * rewrite Nat.iter_succ_r. unfold follow at 2. rewrite Hs. exact Hm.
      * exact Hobs.
      * intros [|j] Hj.
        -- cbn. unfold observable. rewrite Hs. lia.
        -- rewrite Nat.iter_succ_r. unfold follow at 2. rewrite Hs.
           apply Hfirst. lia.
    + destruct fuel as [|fuel']; [discriminate|].
      rewrite (loop_positive fuel' s _ Hk) in H. injection H as <-.
      exists O. split; [reflexivity|split].
      * unfold observable. rewrite Hs. exact Hk.
      * intros j Hj. lia.
  - injection H as <-. exists O. split; [reflexivity|split].
    + unfold observable. rewrite Hs. exact I.
    + intros j Hj. lia.
Qed.

(** An observable status is returned as it is. *)
Lemma loop_observable (fuel : nat) (s : TransitionStatus) :
  observable d s ->
  getTransitionStatus (S (S fuel)) s n d = Some s.
Proof.
  unfold observable, getTransitionStatus. intros Hobs.
  rewrite loop_unfold.
  destruct (narrow s) as [k|] eqn:Hs; [|reflexivity].
  change (0 <=? 0) with true. cbv iota.
  destruct (Z.leb_spec (get d k) 0) as [Hk|Hk]; [lia|].
  apply loop_positive. exact Hk.
Qed.

(** The first observable status on a path is unique. *)
Lemma spec_skipZeroDurations_unique (s r r' : TransitionStatus) :
  spec_skipZeroDurations n d s r -> spec_skipZeroDurations n d s r' -> r = r'.
Proof.
  intros (k & Hk & Ho & Hf) (k' & Hk' & Ho' & Hf').
  destruct (Nat.lt_trichotomy k k') as [Hlt|[Heq|Hgt]].
  - exfalso. apply (Hf' k Hlt). rewrite Hk. exact Ho.
  - subst k'. congruence.
  - exfalso. apply (Hf k' Hgt). rewrite Hk'. exact Ho'.
Qed.

End Loop.

(** With either variant of the next-phase map the loop returns within
    [enough_fuel] evaluations of its condition. *)
Lemma getTransitionStatus_total (n : NextStatusStates) (d : Durations)
    (s : TransitionStatus) :
  variant n -> exists r, getTransitionStatus enough_fuel s n d = Some r.
Proof.
  intros [-> | ->]; destruct d as [d1 d2 d3]; destruct s;
    unfold getTransitionStatus, enough_fuel; cbn; split_leb; eexists; reflexivity.
Qed.

(** A run that is out of fuel after [enough_fuel] evaluations is on a status
    of non-positive duration whose successor is in the same situation. *)
Lemma loop_stuck_closed (n : NextStatusStates) (d : Durations) (s : TransitionStatus) :
  getTransitionStatus_loop enough_fuel n d s 0 = None ->
  exists k, narrow s = Some k /\ get d k <= 0 /\
    getTransitionStatus_loop enough_fuel n d (transitionStatus (get n k)) 0 = None.
Proof.
  destruct n as [[c1 t1] [c2 t2] [c3 t3]]; destruct d as [d1 d2 d3].
  unfold enough_fuel.
  destruct s, t1, t2, t3; cbn; split_leb; intros Hnone; try discriminate Hnone;
    eexists; (split; [reflexivity|]); cbn; (split; [lia|]);
    split_leb; first [reflexivity | exfalso; lia].
Qed.

Lemma loop_stuck_forever (n : NextStatusStates) (d : Durations) (fuel : nat) :
  forall s : TransitionStatus,
    getTransitionStatus_loop enough_fuel n d s 0 = None ->
    getTransitionStatus_loop fuel n d s 0 = None.
Proof.
  induction fuel as [|fuel IH]; intros s H; [reflexivity|].
  destruct (loop_stuck_closed n d s H) as (k & Hs & Hk & Hnext).
  rewrite loop_unfold, Hs. change (0 <=? 0) with true. cbv iota.
  destruct (Z.leb_spec (get d k) 0) as [_|Hgt]; [|lia].
  rewrite loop_nonpositive by exact Hk. apply IH. exact Hnext.
Qed.

(** [enough_fuel] decides every run, whatever the map: a run that returns
    at all returns within [enough_fuel] evaluations of the loop condition. *)
Lemma getTransitionStatus_fuel_complete (n : NextStatusStates) (d : Durations)
    (s : TransitionStatus) (fuel : nat) (r : TransitionStatus) :
  getTransitionStatus fuel s n d = Some r ->
  getTransitionStatus enough_fuel s n d = Some r.
Proof.
  unfold getTransitionStatus. intros H.
  destruct (getTransitionStatus_loop enough_fuel n d s 0) as [r'|] eqn:H4.
  - apply (loop_fuel_add n d fuel) in H4.
    apply (loop_fuel_add n d enough_fuel) in H.
    rewrite Nat.add_comm in H4. congruence.
  - rewrite (loop_stuck_forever n d fuel s H4) in H. discriminate H.
Qed.

Lemma getTransitionStatus_enough (n : NextStatusStates) (d : Durations)
    (s : TransitionStatus) (fuel : nat) (r : TransitionStatus) :
  (enough_fuel <= fuel)%nat ->
  getTransitionStatus enough_fuel s n d = Some r ->
  getTransitionStatus fuel s n d = Some r.
Proof.
  unfold getTransitionStatus. intros Hle H.
  replace fuel with ((fuel - enough_fuel) + enough_fuel)%nat by lia.
  apply loop_fuel_add. exact H.
Qed.

Lemma nextStatusStates_variant (t : option Timeout) : variant (nextStatusStates t).
Proof. destruct t as [[m|t]|]; [right|left|right]; reflexivity. Qed.

(** C4.  For every start phase, duration table and next-phase map of either
    variant, [getTransitionStatus] returns, and what it returns is the first
    phase on the path along the map's phase component that is ['exited'] or
    has a strictly positive duration; a start phase that is itself
    ['exited'] or of positive duration is returned unchanged. *)
Theorem getTransitionStatus_first_observable (n : NextStatusStates) (d : Durations)
    (start : TransitionStatus) (fuel : nat) :
  variant n -> (enough_fuel <= fuel)%nat ->
  exists r,
    getTransitionStatus fuel start n d = Some r /\
    spec_skipZeroDurations n d start r /\
    (forall r', spec_skipZeroDurations n d start r' -> r' = r) /\
    (observable d start -> r = start).
Proof.
  intros Hn Hfuel.
  destruct (getTransitionStatus_total n d start Hn) as [r Hr].
  assert (Hspec : spec_skipZeroDurations n d start r).
  { apply (loop_first_observable n d enough_fuel start 0 r); [lia|exact Hr]. }
  exists r. split; [|split; [|split]].
  - apply getTransitionStatus_enough; assumption.
  - exact Hspec.
  - intros r' Hr'. apply (spec_skipZeroDurations_unique n d start); assumption.
  - intros Hobs. pose proof (loop_observable n d 2 start Hobs) as Hs.
    change (getTransitionStatus enough_fuel start n d = Some start) in Hs.
    congruence.
Qed.

Lemma getTransitionStatus_first_observable_witness :
  exists r,
    getTransitionStatus 4 entering spec_sequenceMap (mkPerStatus 0 2000 250) = Some r /\
    spec_skipZeroDurations spec_sequenceMap (mkPerStatus 0 2000 250) entering r /\
    (forall r', spec_skipZeroDurations spec_sequenceMap (mkPerStatus 0 2000 250)
                  entering r' -> r' = r) /\
    (observable (mkPerStatus 0 2000 250) entering -> r = entering).
Proof.
  apply getTransitionStatus_first_observable;
    [left; reflexivity | unfold enough_fuel; lia].
Defined.

(** C10.  [getTransitionStatus] is idempotent: with either variant of the
    next-phase map it returns, its result is ['exited'] or a phase of
    strictly positive duration, and applying it to its own result returns
    that result again. *)
Theorem getTransitionStatus_idempotent (n : NextStatusStates) (d : Durations)
    (s : TransitionStatus) (fuel : nat) :
  variant n -> (enough_fuel <= fuel)%nat ->
  exists r,
    getTransitionStatus fuel s n d = Some r /\
    observable d r /\
    getTransitionStatus fuel r n d = Some r.
Proof.
  intros Hn Hfuel.
  destruct (getTransitionStatus_total n d s Hn) as [r Hr].
  assert (Hobs : observable d r).
  { destruct (loop_first_observable n d enough_fuel s 0 r) as (k & _ & Ho & _);
      [lia|exact Hr|exact Ho]. }
  exists r. split; [|split].
  - apply getTransitionStatus_enough; assumption.
  - exact Hobs.
  - apply getTransitionStatus_enough; [assumption|].
    exact (loop_observable n d 2 r Hobs).
Qed.

Lemma getTransitionStatus_idempotent_witness :
  exists r,
    getTransitionStatus 5 entered spec_simpleMap (mkPerStatus 0 0 0) = Some r /\
    observable (mkPerStatus 0 0 0) r /\
    getTransitionStatus 5 r spec_simpleMap (mkPerStatus 0 0 0) = Some r.
Proof.
  apply getTransitionStatus_idempotent;
    [right; reflexivity | unfold enough_fuel; lia].
Defined.

(** ** The configuration resolver *)

Lemma Fingerprint_is_eq (a b : Fingerprint) :
  Fingerprint_is a b = true <-> a = b.
Proof.
  destruct a as [|n|s], b as [|m|t]; cbn; split; intros H;
    try reflexivity; try discriminate H.
  - apply Z.eqb_eq in H. congruence.
  - injection H as ->. apply Z.eqb_refl.
  - apply String.eqb_eq in H. congruence.
  - injection H as ->. apply String.eqb_refl.
Qed.

Lemma Text_is_eq (a b : option Text) : Text_is a b = true <-> a = b.
Proof.
  destruct a as [[s|n]|], b as [[t|m]|]; cbn; split; intros H;
    try reflexivity; try discriminate H.
  - apply String.eqb_eq in H. congruence.
  - injection H as ->. apply String.eqb_refl.
  - apply Z.eqb_eq in H. congruence.
  - injection H as ->. apply Z.eqb_refl.
Qed.

(** C7.  The resolver's contract: a number [n] gives the table
    [{entering: 0, entered: n, exiting: 0}] with the Simple map; a partial
    map gives, for each phase, the supplied value or [0], with the Sequence
    map; the Simple map is the Sequence map except at [entered], which it
    sends to [(idle, exited)]. *)
Theorem resolver_contract :
  (forall m : Z,
      durations (Some (TimeoutNumber m)) = mkPerStatus 0 m 0 /\
      nextStatusStates (Some (TimeoutNumber m)) = spec_simpleMap) /\
  (forall t : SequenceTimeout,
      (forall k : SequenceStatus,
          get (durations (Some (TimeoutSequence t))) k =
          match get t k with Some v => v | None => 0 end) /\
      nextStatusStates (Some (TimeoutSequence t)) = spec_sequenceMap) /\
  get spec_sequenceMap seq_entering = mkStatusState resolved entered /\
  get spec_sequenceMap seq_entered = mkStatusState resolved exiting /\
  get spec_sequenceMap seq_exiting = mkStatusState idle exited /\
  (forall k : SequenceStatus,
      get spec_simpleMap k =
      match k with
      | seq_entered => mkStatusState idle exited
      | _ => get spec_sequenceMap k
      end).
Proof.
  repeat split; try reflexivity.
  - destruct k; reflexivity.
  - destruct k; reflexivity.
Qed.

(** A run of the effect touches the timer, the queue and the count of
    [setTimeout] calls, and nothing else. *)
Lemma effect_frame (h h' : Hook) :
  effect h = Some h' ->
  mounted h' = mounted h /\ options h' = options h /\ state h' = state h /\
  memo_hasTimeoutChange h' = memo_hasTimeoutChange h /\
  memo_durations h' = memo_durations h /\
  memo_nextStatusStates h' = memo_nextStatusStates h /\
  memo_writeText h' = memo_writeText h /\
  clipboard h' = clipboard h.
Proof.
  unfold effect. intros H.
  destruct (narrow (transitionStatus (status (state h)))).
  - destruct (getTransitionStatus _ _ _ _) as [r|]; [|discriminate H].
    destruct (narrow r); injection H as <-; cbn; repeat split.
  - injection H as <-; cbn; repeat split.
Qed.

Lemma effect_total (h : Hook) :
  variant (memo_nextStatusStates h) -> exists h', effect h = Some h'.
Proof.
  intros Hn. unfold effect.
  destruct (narrow (transitionStatus (status (state h)))); [|eexists; reflexivity].
  destruct (getTransitionStatus_total (memo_nextStatusStates h) (memo_durations h)
              (transitionStatus (status (state h))) Hn) as [r ->].
  destruct (narrow r); eexists; reflexivity.
Qed.

(** The timer the effect leaves waits for a strictly positive time, that of
    the status [getTransitionStatus] returned. *)
Lemma effect_timer (h h' : Hook) (t : Timer) :
  effect h = Some h' -> timeoutId h' = Some t ->
  timer_nextStatusStates t = memo_nextStatusStates h /\
  timer_delay t = get (memo_durations h) (timer_status t) /\
  0 < timer_delay t /\
  getTransitionStatus enough_fuel (transitionStatus (status (state h)))
    (memo_nextStatusStates h) (memo_durations h) = Some (of_sequence (timer_status t)).
Proof.
  unfold effect. intros H Ht.
  destruct (narrow (transitionStatus (status (state h)))).
  - destruct (getTransitionStatus _ _ _ _) as [r|] eqn:Hr; [|discriminate H].
    destruct (narrow r) as [k|] eqn:Hk; injection H as <-; cbn in Ht;
      [|discriminate Ht].
    injection Ht as <-. cbn.
    destruct (loop_first_observable _ _ _ _ 0 _ (Z.le_refl 0) Hr) as (j & _ & Ho & _).
    unfold observable in Ho. rewrite Hk in Ho.
    repeat split; try exact Ho.
    destruct r; cbn in Hk; try discriminate Hk; injection Hk as <-; reflexivity.
  - injection H as <-. discriminate Ht.
Qed.

Lemma effect_queued (h h' : Hook) (s : UseClipboardState) :
  effect h = Some h' -> queued h' = Some s ->
  queued h = Some s \/ (s = defaultState /\ mounted h = true).
Proof.
  unfold effect. intros H Hq.
  destruct (narrow (transitionStatus (status (state h)))).
  - destruct (getTransitionStatus _ _ _ _) as [r|]; [|discriminate H].
    destruct (narrow r); injection H as <-; cbn in Hq; [left; exact Hq|].
    destruct (mounted h); [right|left; exact Hq].
    injection Hq as <-. split; reflexivity.
  - injection H as <-. left. exact Hq.
Qed.

(** In the resting state the effect only clears the timer. *)
Lemma effect_exited (h : Hook) :
  transitionStatus (status (state h)) = exited ->
  effect h =
  Some (mkHook (mounted h) (options h) (state h) (memo_hasTimeoutChange h)
          (memo_durations h) (memo_nextStatusStates h) (memo_writeText h)
          None (queued h) (timeouts h) (clipboard h)).
Proof. unfold effect. intros ->. reflexivity. Qed.

(** ** Invariants of the hook *)

Lemma useMemos_unchanged (o : UseClipboardOptions) (h : Hook) :
  Fingerprint_is (hasTimeoutChange (timeout o)) (memo_hasTimeoutChange h) = true ->
  memo_durations (useMemos o h) = memo_durations h /\
  memo_nextStatusStates (useMemos o h) = memo_nextStatusStates h.
Proof. unfold useMemos. intros ->. cbn. split; reflexivity. Qed.

Lemma useMemos_changed (o : UseClipboardOptions) (h : Hook) :
  Fingerprint_is (hasTimeoutChange (timeout o)) (memo_hasTimeoutChange h) = false ->
  memo_durations (useMemos o h) = durations (timeout o) /\
  memo_nextStatusStates (useMemos o h) = nextStatusStates (timeout o) /\
  memo_writeText (useMemos o h) =
  mkClosure (state h) (text o) (nextStatusStates (timeout o)) (durations (timeout o)).
Proof. unfold useMemos. intros ->. cbn. repeat split. Qed.

(** Rendering again with the options of the last render recomputes nothing. *)
Lemma useMemos_same_options (h : Hook) :
  Hook_ok h -> useMemos (options h) h = h.
Proof.
  intros Hok. unfold useMemos.
  rewrite <- (ok_fingerprint h Hok).
  rewrite (proj2 (Fingerprint_is_eq _ _) eq_refl).
  rewrite <- (ok_closure_text h Hok).
  rewrite (proj2 (Text_is_eq _ _) eq_refl).
  cbn. destruct h; reflexivity.
Qed.

Lemma useMemos_variant (o : UseClipboardOptions) (h : Hook) :
  variant (memo_nextStatusStates h) ->
  variant (memo_nextStatusStates (useMemos o h)).
Proof.
  intros Hn. unfold useMemos. cbn.
  destruct (negb _); [apply nextStatusStates_variant|exact Hn].
Qed.

Lemma useMemos_closure (o : UseClipboardOptions) (h : Hook) :
  Hook_ok h ->
  closure_text (memo_writeText (useMemos o h)) = text o /\
  closure_nextStatusStates (memo_writeText (useMemos o h)) =
    memo_nextStatusStates (useMemos o h) /\
  closure_durations (memo_writeText (useMemos o h)) = memo_durations (useMemos o h).
Proof.
  intros Hok. unfold useMemos. cbn.
  destruct (negb (Fingerprint_is _ _)); cbn; [repeat split|].
  destruct (Text_is (text o) (closure_text (memo_writeText h))) eqn:Ht; cbn;
    [|repeat split].
  apply Text_is_eq in Ht.
  split; [congruence|]. split; [apply Hok|apply Hok].
Qed.

Lemma useMemos_frame (o : UseClipboardOptions) (h : Hook) :
  mounted (useMemos o h) = mounted h /\ options (useMemos o h) = o /\
  state (useMemos o h) = state h /\ timeoutId (useMemos o h) = timeoutId h /\
  queued (useMemos o h) = queued h /\ timeouts (useMemos o h) = timeouts h /\
  clipboard (useMemos o h) = clipboard h /\
  memo_hasTimeoutChange (useMemos o h) = hasTimeoutChange (timeout o).
Proof. repeat split. Qed.

Lemma render_ok (o : UseClipboardOptions) (b : bool) (h : Hook) :
  Hook_ok h ->
  exists h', render o b h = Some h' /\ Hook_ok h' /\
    state h' = state h /\ options h' = o /\ mounted h' = mounted h /\
    clipboard h' = clipboard h.
Proof.
  intros Hok. unfold render.
  pose proof (useMemos_closure o h Hok) as (Hct & Hcn & Hcd).
  pose proof (useMemos_variant o h (ok_nextStatusStates h Hok)) as Hvar.
  pose proof (useMemos_frame o h) as (Fm & Fo & Fs & Ft & Fq & Fn & Fc & Ff).
  destruct (b || negb (Fingerprint_is _ _)) eqn:Hrun.
  - destruct (effect_total _ Hvar) as [h' Hh'].
    pose proof (effect_frame _ _ Hh') as (Hm & Ho & Hs & Hfp & Hd & Hn & Hw & Hc).
    exists h'. split; [exact Hh'|]. split; [|repeat split; congruence].
    constructor.
    + rewrite Hfp, Ho, Fo, Ff. reflexivity.
    + rewrite Hn. exact Hvar.
    + rewrite Hw, Ho, Fo. exact Hct.
    + rewrite Hw, Hn. exact Hcn.
    + rewrite Hw, Hd. exact Hcd.
    + intros t Ht. rewrite Hn, Hd.
      destruct (effect_timer _ _ t Hh' Ht) as (H1 & H2 & H3 & _). auto.
    + intros s Hq. rewrite Hm, Fm.
      destruct (effect_queued _ _ s Hh' Hq) as [Hq'|Hq'].
      * apply (ok_queued h Hok). rewrite <- Fq. exact Hq'.
      * rewrite <- Fm. exact Hq'.
  - apply orb_false_iff in Hrun. destruct Hrun as [_ Hfp].
    apply negb_false_iff in Hfp.
    destruct (useMemos_unchanged o h Hfp) as [Hd Hn].
    eexists. split; [reflexivity|]. split; [|repeat split].
    constructor.
    + reflexivity.
    + exact Hvar.
    + exact Hct.
    + exact Hcn.
    + exact Hcd.
    + intros t Ht. rewrite Hn, Hd. apply (ok_timer h Hok). exact Ht.
    + intros s Hq. apply (ok_queued h Hok). exact Hq.
Qed.

(** [Hook_ok] does not read the state, the logs or a cleared timer or queue. *)
Lemma Hook_ok_update (h : Hook) (s : UseClipboardState) (tid : option Timer)
    (q : option UseClipboardState) (count : nat) (log : list string) :
  Hook_ok h ->
  tid = timeoutId h \/ tid = None ->
  q = queued h \/ q = None ->
  Hook_ok (mkHook (mounted h) (options h) s (memo_hasTimeoutChange h)
             (memo_durations h) (memo_nextStatusStates h) (memo_writeText h)
             tid q count log).
Proof.
  intros Hok Htid Hq. constructor; cbn; try apply Hok.
  - intros t Ht. destruct Htid as [-> | ->]; [|discriminate Ht].
    apply (ok_timer h Hok). exact Ht.
  - intros s' Hs'. destruct Hq as [-> | ->]; [|discriminate Hs'].
    apply (ok_queued h Hok). exact Hs'.
Qed.

(** On a mounted hook [safeSetState] replaces the state and runs the effect;
    no memoized value is recomputed. *)
Lemma safeSetState_effect (s : UseClipboardState) (h : Hook) :
  Hook_ok h -> mounted h = true ->
  safeSetState s h =
  effect (mkHook (mounted h) (options h) s (memo_hasTimeoutChange h)
            (memo_durations h) (memo_nextStatusStates h) (memo_writeText h)
            (timeoutId h) (queued h) (timeouts h) (clipboard h)).
Proof.
  intros Hok Hm. unfold safeSetState.
  set (hs := mkHook _ _ s _ _ _ _ _ _ _ _).
  rewrite Hm. unfold render. cbn [orb].
  assert (Hok' : Hook_ok hs)
    by (apply Hook_ok_update; [exact Hok|left; reflexivity|left; reflexivity]).
  change (options h) with (options hs).
  rewrite (useMemos_same_options hs Hok'). reflexivity.
Qed.

Lemma safeSetState_ok (s : UseClipboardState) (h : Hook) :
  Hook_ok h ->
  exists h', safeSetState s h = Some h' /\ Hook_ok h' /\
    (state h' = s \/ h' = h) /\
    (mounted h = true -> state h' = s) /\
    options h' = options h /\ mounted h' = mounted h /\
    clipboard h' = clipboard h /\ memo_writeText h' = memo_writeText h /\
    memo_durations h' = memo_durations h /\
    memo_nextStatusStates h' = memo_nextStatusStates h.
Proof.
  intros Hok. destruct (mounted h) eqn:Hm.
  - pose proof (Hook_ok_update h s (timeoutId h) (queued h) (timeouts h) (clipboard h)
                  Hok (or_introl eq_refl) (or_introl eq_refl)) as Hok'.
    destruct (render_ok (options h) true _ Hok') as (h' & Hr & Hok'' & Hs & Ho & Hm' & Hc).
    assert (Hsafe : safeSetState s h = Some h').
    { unfold safeSetState.
      set (hs := mkHook _ _ s _ _ _ _ _ _ _ _) in Hr |- *.
      rewrite Hm. exact Hr. }
    pose proof Hsafe as Heff.
    rewrite safeSetState_effect in Heff by assumption.
    pose proof (effect_frame _ _ Heff) as (_ & _ & _ & _ & Hd & Hn & Hw & _).
    exists h'.
    split; [exact Hsafe|]. split; [exact Hok''|].
    cbn in Hs, Hm', Hc, Hd, Hn, Hw.
    repeat split; auto. congruence.
  - exists h. unfold safeSetState. rewrite Hm.
    split; [reflexivity|]. split; [exact Hok|]. split; [right; reflexivity|].
    split; [intros Habs; discriminate Habs|]. repeat split.
Qed.

(** Every state [writeText] asks for pairs the copy status and the error as
    [State_ok] says. *)
Lemma writeText_setState_ok (c : WriteTextClosure) (arg : WriteTextArg)
    (w : Settled) (r : WriteTextRun) (s : UseClipboardState) :
  writeText c arg w = Some r -> run_setState r = Some s -> State_ok s.
Proof.
  unfold writeText. intros H Hs.
  destruct (narrow (transitionStatus (status (closure_state c)))).
  { injection H as <-. discriminate Hs. }
  destruct (String.eqb _ _).
  { injection H as <-. discriminate Hs. }
  destruct w as [|e].
  - destruct (getTransitionStatus _ _ _ _) as [ts|]; [|discriminate H].
    destruct (narrow ts) eqn:Hts; injection H as <-; [|discriminate Hs].
    injection Hs as <-. split; cbn; [discriminate|congruence].
  - injection H as <-. injection Hs as <-. split; cbn; [reflexivity|reflexivity].
Qed.

(** The promise [writeText] returns is never rejected. *)
Lemma writeText_fulfilled (c : WriteTextClosure) (arg : WriteTextArg)
    (w : Settled) (r : WriteTextRun) :
  writeText c arg w = Some r -> run_promise r = Fulfilled.
Proof.
  unfold writeText. intros H.
  destruct (narrow (transitionStatus (status (closure_state c)))).
  { injection H as <-. reflexivity. }
  destruct (String.eqb _ _).
  { injection H as <-. reflexivity. }
  destruct w as [|e].
  - destruct (getTransitionStatus _ _ _ _) as [ts|]; [|discriminate H].
    destruct (narrow ts); injection H as <-; reflexivity.
  - injection H as <-. reflexivity.
Qed.

Lemma variant_never_rejected (n : NextStatusStates) (k : SequenceStatus) :
  variant n -> copyStatus (get n k) <> rejected.
Proof. intros [-> | ->]; destruct k; discriminate. Qed.

Lemma defaultState_ok : State_ok defaultState.
Proof. split; cbn; [reflexivity|congruence]. Qed.

Lemma step_ok (ev : Event) (h h' : Hook) :
  Hook_ok h -> State_ok (state h) -> step ev h = Some h' ->
  Hook_ok h' /\ State_ok (state h').
Proof.
  intros Hok Hst Hstep. unfold step in Hstep.
  destruct (queued h) as [action|] eqn:Hq.
  - destruct ev; try discriminate Hstep.
    destruct (ok_queued h Hok action Hq) as [-> Hm].
    pose proof (Hook_ok_update h (state h) (timeoutId h) None (timeouts h) (clipboard h)
                  Hok (or_introl eq_refl) (or_intror eq_refl)) as Hok1.
    destruct (safeSetState_ok defaultState _ Hok1) as (h1 & H1 & Hok' & _ & Hs & _).
    rewrite H1 in Hstep. injection Hstep as <-.
    split; [exact Hok'|]. rewrite (Hs Hm). exact defaultState_ok.
  - destruct ev as [arg w| | |o|]; try discriminate Hstep.
    + destruct (writeText (memo_writeText h) arg w) as [r|] eqn:Hw;
        [|discriminate Hstep].
      match type of Hstep with
      | context [mkHook _ _ _ _ _ _ _ _ _ _ ?log] =>
          pose proof (Hook_ok_update h (state h) (timeoutId h) None
                        (timeouts h) log Hok (or_introl eq_refl) (or_intror eq_refl))
            as Hok1
      end.
      destruct (run_setState r) as [action|] eqn:Hact.
      * destruct (safeSetState_ok action _ Hok1) as (h1 & H1 & Hok' & [Hs|Hs] & _).
        -- rewrite H1 in Hstep. injection Hstep as <-.
           split; [exact Hok'|]. rewrite Hs.
           exact (writeText_setState_ok _ _ _ _ _ Hw Hact).
        -- rewrite H1 in Hstep. injection Hstep as <-.
           split; [exact Hok'|]. rewrite Hs. exact Hst.
      * injection Hstep as <-. split; [exact Hok1|exact Hst].
    + destruct (timeoutId h) as [t|] eqn:Ht; [|discriminate Hstep].
      pose proof (Hook_ok_update h (state h) None None (timeouts h) (clipboard h)
                    Hok (or_intror eq_refl) (or_intror eq_refl)) as Hok1.
      match type of Hstep with
      | safeSetState ?a _ = _ =>
          destruct (safeSetState_ok a _ Hok1) as (h1 & H1 & Hok' & [Hs|Hs] & _)
      end.
      * rewrite H1 in Hstep. injection Hstep as <-.
        split; [exact Hok'|]. rewrite Hs. split; cbn; [|congruence].
        intros Hrej. exfalso.
        destruct (ok_timer h Hok t Ht) as (Hn & _).
        apply (variant_never_rejected (timer_nextStatusStates t) (timer_status t));
          [rewrite Hn; apply Hok|exact Hrej].
      * rewrite H1 in Hstep. injection Hstep as <-.
        split; [exact Hok'|]. rewrite Hs. exact Hst.
    + destruct (mounted h); [|discriminate Hstep].
      destruct (render_ok o false h Hok) as (h1 & H1 & Hok' & Hs & _).
      rewrite H1 in Hstep. injection Hstep as <-.
      split; [exact Hok'|]. rewrite Hs. exact Hst.
    + destruct (mounted h) eqn:Hm; [|discriminate Hstep].
      injection Hstep as <-. split; [|exact Hst].
      constructor; cbn; try apply Hok.
      * intros t Ht. discriminate Ht.
      * intros s Hs. discriminate Hs.
Qed.

Lemma mount_eq (o : UseClipboardOptions) :
  mount o =
  Some (mkHook true o defaultState (hasTimeoutChange (timeout o))
          (durations (timeout o)) (nextStatusStates (timeout o))
          (mkClosure defaultState (text o) (nextStatusStates (timeout o))
             (durations (timeout o)))
          None None O []).
Proof. reflexivity. Qed.

Lemma mount_ok (o : UseClipboardOptions) (h : Hook) :
  mount o = Some h -> Hook_ok h /\ State_ok (state h).
Proof.
  rewrite mount_eq. intros H. injection H as <-.
  split; [|exact defaultState_ok].
  constructor; cbn; try reflexivity.
  - apply nextStatusStates_variant.
  - intros t Ht. discriminate Ht.
  - intros s Hs. discriminate Hs.
Qed.

Lemma reachable_ok (h : Hook) :
  reachable h -> Hook_ok h /\ State_ok (state h).
Proof.
  induction 1 as [o h Hm|ev h h' _ [Hok Hst] Hstep].
  - exact (mount_ok o h Hm).
  - exact (step_ok ev h h' Hok Hst Hstep).
Qed.

Lemma run_reachable (evs : list Event) :
  forall h h' : Hook, reachable h -> run evs h = Some h' -> reachable h'.
Proof.
  induction evs as [|ev evs IH]; intros h h' Hr Hrun; cbn in Hrun.
  - injection Hrun as <-. exact Hr.
  - destruct (step ev h) as [h1|] eqn:Hstep; [|discriminate Hrun].
    apply (IH h1); [|exact Hrun].
    exact (reachable_step ev h h1 Hr Hstep).
Qed.

Lemma after_reachable (o : UseClipboardOptions) (evs : list Event) (h : Hook) :
  after o evs = Some h -> reachable h.
Proof.
  unfold after. destruct (mount o) as [h0|] eqn:Hm; [|discriminate].
  apply run_reachable. exact (reachable_mount o h0 Hm).
Qed.

(** C9.  In every reachable hook a [rejected] copy status comes with the
    [exited] transition status, and an error that is not null comes with the
    [rejected] copy status; an event either leaves the state as it was, or
    sets its error to null, or is a call of [writeText] whose clipboard
    write was rejected. *)
Theorem rejected_paired_with_exited (h : Hook) :
  reachable h ->
  (copyStatus (status (state h)) = rejected ->
   transitionStatus (status (state h)) = exited) /\
  (error (state h) <> None -> copyStatus (status (state h)) = rejected) /\
  (forall (ev : Event) (h' : Hook),
      step ev h = Some h' ->
      state h' = state h \/ error (state h') = None \/
      exists arg e, ev = CallWriteText arg (RejectedWith e) /\
        state h' = mkState (Some e) (mkStatusState rejected exited)).
Proof.
  intros Hr. destruct (reachable_ok h Hr) as [Hok [H1 H2]].
  split; [exact H1|]. split; [exact H2|].
  intros ev h' Hstep. unfold step in Hstep.
  destruct (queued h) as [action|] eqn:Hq.
  - destruct ev; try discriminate Hstep.
    destruct (ok_queued h Hok action Hq) as [-> Hm].
    pose proof (Hook_ok_update h (state h) (timeoutId h) None (timeouts h) (clipboard h)
                  Hok (or_introl eq_refl) (or_intror eq_refl)) as Hok1.
    destruct (safeSetState_ok defaultState _ Hok1) as (h1 & E1 & _ & _ & Hs & _).
    rewrite E1 in Hstep. injection Hstep as <-.
    right; left. rewrite (Hs Hm). reflexivity.
  - destruct ev as [arg w| | |o|]; try discriminate Hstep.
    + destruct (writeText (memo_writeText h) arg w) as [r|] eqn:Hw;
        [|discriminate Hstep].
      match type of Hstep with
      | context [mkHook _ _ _ _ _ _ _ _ _ _ ?log] =>
          pose proof (Hook_ok_update h (state h) (timeoutId h) None
                        (timeouts h) log Hok (or_introl eq_refl) (or_intror eq_refl))
            as Hok1
      end.
      destruct (run_setState r) as [action|] eqn:Hact.
      * destruct (safeSetState_ok action _ Hok1) as (h1 & E1 & _ & [Hs|Hs] & _);
          rewrite E1 in Hstep; injection Hstep as <-; [|left; rewrite Hs; reflexivity].
        right. rewrite Hs. clear E1 Hs Hok1.
        unfold writeText in Hw.
        destruct (narrow (transitionStatus (status (closure_state (memo_writeText h))))).
        { injection Hw as <-. discriminate Hact. }
        destruct (String.eqb _ _).
        { injection Hw as <-. discriminate Hact. }
        destruct w as [|e].
        -- destruct (getTransitionStatus _ _ _ _) as [ts|]; [|discriminate Hw].
           destruct (narrow ts); injection Hw as <-; [|discriminate Hact].
           injection Hact as <-. left. reflexivity.
        -- injection Hw as <-. injection Hact as <-.
           right. exists arg, e. split; reflexivity.
      * injection Hstep as <-. left. reflexivity.
    + destruct (timeoutId h) as [t|] eqn:Ht; [|discriminate Hstep].
      pose proof (Hook_ok_update h (state h) None None (timeouts h) (clipboard h)
                    Hok (or_intror eq_refl) (or_intror eq_refl)) as Hok1.
      match type of Hstep with
      | safeSetState ?a _ = _ =>
          destruct (safeSetState_ok a _ Hok1) as (h1 & E1 & _ & [Hs|Hs] & _)
      end; rewrite E1 in Hstep; injection Hstep as <-.
      * right; left. rewrite Hs. reflexivity.
      * left. rewrite Hs. reflexivity.
    + destruct (mounted h); [|discriminate Hstep].
      destruct (render_ok o false h Hok) as (h1 & E1 & _ & Hs & _).
      rewrite E1 in Hstep. injection Hstep as <-. left. exact Hs.
    + destruct (mounted h); [|discriminate Hstep].
      injection Hstep as <-. left. reflexivity.
Qed.

Lemma rejected_paired_with_exited_witness :
  exists h : Hook,
    after simple_options [CallWriteText ArgUndefined (RejectedWith "NotAllowedError")]
      = Some h /\
    copyStatus (status (state h)) = rejected /\
    error (state h) <> None /\
    ((copyStatus (status (state h)) = rejected ->
      transitionStatus (status (state h)) = exited) /\
     (error (state h) <> None -> copyStatus (status (state h)) = rejected) /\
     (forall (ev : Event) (h' : Hook),
         step ev h = Some h' ->
         state h' = state h \/ error (state h') = None \/
         exists arg e, ev = CallWriteText arg (RejectedWith e) /\
           state h' = mkState (Some e) (mkStatusState rejected exited))).
Proof.
  eexists. split; [vm_compute; reflexivity|].
  split; [reflexivity|]. split; [discriminate|].
  apply rejected_paired_with_exited.
  apply (after_reachable simple_options
           [CallWriteText ArgUndefined (RejectedWith "NotAllowedError")]).
  vm_compute. reflexivity.
Defined.

(** ** [writeText], call by call *)

(** The guard: a callback whose captured state is in flight does nothing. *)
Lemma writeText_blocked (c : WriteTextClosure) (arg : WriteTextArg) (w : Settled) :
  transitionStatus (status (closure_state c)) <> exited ->
  writeText c arg w = Some (mkRun None None Fulfilled).
Proof.
  unfold writeText. intros Hne.
  destruct (transitionStatus (status (closure_state c))); cbn [narrow];
    try reflexivity. congruence.
Qed.

Lemma writeText_empty (c : WriteTextClosure) (arg : WriteTextArg) (w : Settled) :
  clipboardText arg (closure_text c) = EmptyString ->
  writeText c arg w = Some (mkRun None None Fulfilled).
Proof.
  unfold writeText. intros ->.
  destruct (narrow _); reflexivity.
Qed.

(** The clipboard is written only past the guard, and only with the text
    [clipboardText] resolves, which is then not empty. *)
Lemma writeText_written (c : WriteTextClosure) (arg : WriteTextArg) (w : Settled)
    (r : WriteTextRun) (t : string) :
  writeText c arg w = Some r -> run_written r = Some t ->
  transitionStatus (status (closure_state c)) = exited /\
  t = clipboardText arg (closure_text c) /\ t <> EmptyString.
Proof.
  unfold writeText. intros H Ht.
  destruct (narrow (transitionStatus (status (closure_state c)))) eqn:Hn.
  { injection H as <-. discriminate Ht. }
  assert (Hts : transitionStatus (status (closure_state c)) = exited)
    by (destruct (transitionStatus (status (closure_state c)));
        try discriminate Hn; reflexivity).
  destruct (String.eqb_spec (clipboardText arg (closure_text c)) EmptyString)
    as [Hempty|Hfull].
  { injection H as <-. discriminate Ht. }
  split; [exact Hts|].
  destruct w as [|e].
  - destruct (getTransitionStatus _ _ _ _) as [ts|]; [|discriminate H].
    destruct (narrow ts); injection H as <-; injection Ht as <-; split; auto.
  - injection H as <-. injection Ht as <-. split; auto.
Qed.

Lemma writeText_rejected (c : WriteTextClosure) (arg : WriteTextArg) (e : Error) :
  transitionStatus (status (closure_state c)) = exited ->
  clipboardText arg (closure_text c) <> EmptyString ->
  writeText c arg (RejectedWith e) =
  Some (mkRun (Some (clipboardText arg (closure_text c)))
          (Some (mkState (Some e) (mkStatusState rejected exited))) Fulfilled).
Proof.
  unfold writeText. intros -> Hfull. cbn [narrow].
  destruct (String.eqb_spec (clipboardText arg (closure_text c)) EmptyString);
    [contradiction|reflexivity].
Qed.

(** Past the guard and with a text to write, [writeText] returns and has
    written the text, whatever the outcome of the write. *)
Lemma writeText_proceeds (c : WriteTextClosure) (arg : WriteTextArg) (w : Settled) :
  variant (closure_nextStatusStates c) ->
  transitionStatus (status (closure_state c)) = exited ->
  clipboardText arg (closure_text c) <> EmptyString ->
  exists r, writeText c arg w = Some r /\
    run_written r = Some (clipboardText arg (closure_text c)).
Proof.
  intros Hn Hts Hfull. destruct w as [|e].
  - unfold writeText. rewrite Hts. cbn [narrow nextStatuses].
    destruct (String.eqb_spec (clipboardText arg (closure_text c)) EmptyString);
      [contradiction|].
    destruct (getTransitionStatus_total (closure_nextStatusStates c)
                (closure_durations c) entering Hn) as [ts ->].
    destruct (narrow ts); eexists; split; reflexivity.
  - rewrite writeText_rejected by assumption. eexists; split; reflexivity.
Qed.

(** One call of the memoized [writeText] on the hook. *)
Lemma step_writeText (h : Hook) (arg : WriteTextArg) (w : Settled) (r : WriteTextRun) :
  Hook_ok h -> queued h = None ->
  writeText (memo_writeText h) arg w = Some r ->
  exists h', step (CallWriteText arg w) h = Some h' /\ Hook_ok h' /\
    clipboard h' = match run_written r with
                   | Some t => t :: clipboard h
                   | None => clipboard h
                   end /\
    (run_setState r = None ->
     state h' = state h /\ timeoutId h' = timeoutId h /\
     timeouts h' = timeouts h /\ queued h' = None) /\
    (forall s, run_setState r = Some s -> mounted h = true ->
       state h' = s /\
       effect (mkHook (mounted h) (options h) s (memo_hasTimeoutChange h)
                 (memo_durations h) (memo_nextStatusStates h) (memo_writeText h)
                 (timeoutId h) None (timeouts h) (clipboard h')) = Some h') /\
    memo_writeText h' = memo_writeText h /\ options h' = options h /\
    mounted h' = mounted h.
Proof.
  intros Hok Hq Hw. unfold step. rewrite Hq, Hw.
  set (log := match run_written r with Some t => t :: clipboard h | None => clipboard h end).
  pose proof (Hook_ok_update h (state h) (timeoutId h) None (timeouts h) log
                Hok (or_introl eq_refl) (or_intror eq_refl)) as Hok1.
  destruct (run_setState r) as [action|].
  - destruct (safeSetState_ok action _ Hok1)
      as (h' & E & Hok' & _ & Hs & Ho & Hm & Hc & Hcl & _).
    cbn in Hs, Ho, Hm, Hc, Hcl.
    exists h'. split; [exact E|]. split; [exact Hok'|]. split; [exact Hc|].
    split; [intros Habs; discriminate Habs|].
    split; [|repeat split; assumption].
    intros s Hs' Hmounted. injection Hs' as <-.
    split; [exact (Hs Hmounted)|].
    rewrite safeSetState_effect in E by (cbn; assumption).
    rewrite Hc. exact E.
  - eexists. split; [reflexivity|]. split; [exact Hok1|].
    split; [reflexivity|]. split; [intros _; repeat split|].
    split; [intros s Hs; discriminate Hs|repeat split].
Qed.

(** Rendering with other options does not close the guard of a hook at
    rest: a callback created anew captures the resting state. *)
Lemma rerender_at_rest (o : UseClipboardOptions) (h h' : Hook) :
  at_rest h -> step (Rerender o) h = Some h' -> at_rest h'.
Proof.
  intros (Hq & Hs & Hc) Hstep. unfold step in Hstep. rewrite Hq in Hstep.
  destruct (mounted h); [|discriminate Hstep].
  unfold render in Hstep. cbn [orb] in Hstep.
  destruct (Fingerprint_is (hasTimeoutChange (timeout o)) (memo_hasTimeoutChange h))
    eqn:Hfp; cbn [negb] in Hstep.
  - injection Hstep as <-. unfold at_rest, useMemos. rewrite Hfp. cbn.
    split; [exact Hq|]. split; [exact Hs|].
    destruct (negb (Text_is _ _)); cbn; assumption.
  - rewrite effect_exited in Hstep by exact Hs.
    injection Hstep as <-. unfold at_rest, useMemos. rewrite Hfp. cbn. auto.
Qed.

Lemma rerenders_at_rest (os : list UseClipboardOptions) :
  forall h h' : Hook,
    at_rest h -> run (map Rerender os) h = Some h' -> at_rest h'.
Proof.
  induction os as [|o os IH]; intros h h' Hrest Hrun; cbn in Hrun.
  - injection Hrun as <-. exact Hrest.
  - destruct (step (Rerender o) h) as [h1|] eqn:Hstep; [|discriminate Hrun].
    apply (IH h1); [|exact Hrun].
    exact (rerender_at_rest o h h1 Hrest Hstep).
Qed.

(** A reachable hook at rest writes whatever non-empty text it is called
    with. *)
Lemma at_rest_writes (h : Hook) (arg : WriteTextArg) (w : Settled) :
  reachable h -> at_rest h ->
  clipboardText arg (text (options h)) <> EmptyString ->
  exists h', step (CallWriteText arg w) h = Some h' /\
    clipboard h' = clipboardText arg (text (options h)) :: clipboard h.
Proof.
  intros Hr (Hq & _ & Hc) Hfull. destruct (reachable_ok h Hr) as [Hok _].
  rewrite <- (ok_closure_text h Hok) in Hfull |- *.
  destruct (writeText_proceeds (memo_writeText h) arg w) as (r & Hw & Hwritten).
  - rewrite (ok_closure_nextStatusStates h Hok). apply Hok.
  - exact Hc.
  - exact Hfull.
  - destruct (step_writeText h arg w r Hok Hq Hw) as (h' & Hstep & _ & Hc' & _).
    exists h'. split; [exact Hstep|]. rewrite Hc', Hwritten. reflexivity.
Qed.

(** The rejected write that settles before anything else happens.  On a
    mounted hook the state becomes
    [{error: e, copyStatus: 'rejected', transitionStatus: 'exited'}], the
    promise [writeText] returned is fulfilled, and the next call, directly
    or after renders with other options, is past the guard.  With events
    between the call and the settlement of its write the last part fails:
    see [rejected_write_then_blocked]. *)
Theorem writeText_failure_recorded (h : Hook) (arg : WriteTextArg) (e : Error)
    (r : WriteTextRun) (t : string) :
  reachable h -> mounted h = true -> queued h = None ->
  writeText (memo_writeText h) arg (RejectedWith e) = Some r ->
  run_written r = Some t ->
  run_promise r = Fulfilled /\
  exists h',
    step (CallWriteText arg (RejectedWith e)) h = Some h' /\
    state h' = mkState (Some e) (mkStatusState rejected exited) /\
    timeoutId h' = None /\
    forall (os : list UseClipboardOptions) (h2 : Hook)
           (arg' : WriteTextArg) (w' : Settled),
      run (map Rerender os) h' = Some h2 ->
      clipboardText arg' (text (options h2)) <> EmptyString ->
      exists h'', step (CallWriteText arg' w') h2 = Some h'' /\
        clipboard h'' = clipboardText arg' (text (options h2)) :: clipboard h2.
Proof.
  intros Hr Hm Hq Hw Ht.
  destruct (reachable_ok h Hr) as [Hok _].
  split; [exact (writeText_fulfilled _ _ _ _ Hw)|].
  destruct (writeText_written _ _ _ _ _ Hw Ht) as (Hts & -> & Hfull).
  pose proof Hw as Hw'. rewrite writeText_rejected in Hw' by assumption.
  injection Hw' as <-.
  destruct (step_writeText h arg _ _ Hok Hq Hw)
    as (h' & Hstep & Hok' & Hc & _ & Hset & Hcl & Ho & Hm').
  destruct (Hset _ eq_refl Hm) as [Hs Heff].
  rewrite effect_exited in Heff by reflexivity. injection Heff as Heq.
  exists h'. split; [exact Hstep|]. split; [exact Hs|].
  split; [rewrite <- Heq; reflexivity|].
  intros os h2 arg' w' Hrun Hfull'.
  assert (Hrest : at_rest h').
  { split; [rewrite <- Heq; reflexivity|]. split; [rewrite Hs; reflexivity|].
    rewrite Hcl. exact Hts. }
  assert (Hr' : reachable h') by exact (reachable_step _ h h' Hr Hstep).
  apply at_rest_writes.
  - exact (run_reachable _ h' h2 Hr' Hrun).
  - exact (rerenders_at_rest os h' h2 Hrest Hrun).
  - exact Hfull'.
Qed.

Lemma writeText_failure_recorded_witness :
  exists (h : Hook) (r : WriteTextRun),
    after simple_options [] = Some h /\
    writeText (memo_writeText h) ArgUndefined (RejectedWith "NotAllowedError") = Some r /\
    run_written r = Some "hi" /\
    run_promise r = Fulfilled /\
    exists h',
      step (CallWriteText ArgUndefined (RejectedWith "NotAllowedError")) h = Some h' /\
      state h' = mkState (Some "NotAllowedError") (mkStatusState rejected exited) /\
      timeoutId h' = None /\
      forall (os : list UseClipboardOptions) (h2 : Hook)
             (arg' : WriteTextArg) (w' : Settled),
        run (map Rerender os) h' = Some h2 ->
        clipboardText arg' (text (options h2)) <> EmptyString ->
        exists h'', step (CallWriteText arg' w') h2 = Some h'' /\
          clipboard h'' = clipboardText arg' (text (options h2)) :: clipboard h2.
Proof.
  eexists. eexists.
  split; [vm_compute; reflexivity|].
  split; [vm_compute; reflexivity|].
  split; [reflexivity|].
  eapply writeText_failure_recorded.
  - apply (after_reachable simple_options []). vm_compute. reflexivity.
  - reflexivity.
  - reflexivity.
  - vm_compute. reflexivity.
  - reflexivity.
Defined.

(** ** The call and the settlement of its write, apart *)

(** The body of [writeText] is its part before the [await] followed by its
    part after. *)
Lemma writeText_split (c : WriteTextClosure) (arg : WriteTextArg) (w : Settled) :
  writeText c arg w =
  match writeText_before_await c arg with
  | None => Some (mkRun None None Fulfilled)
  | Some t =>
    match writeText_after_await c w with
    | Some action => Some (mkRun (Some t) action Fulfilled)
    | None => None
    end
  end.
Proof.
  unfold writeText, writeText_before_await, writeText_after_await.
  destruct (narrow (transitionStatus (status (closure_state c)))); [reflexivity|].
  cbv zeta.
  destruct (String.eqb (clipboardText arg (closure_text c)) EmptyString);
    [reflexivity|].
  destruct w as [|e]; [|reflexivity].
  destruct (getTransitionStatus _ _ _ _) as [ts|]; [|reflexivity].
  destruct (narrow ts); reflexivity.
Qed.

Lemma nth_error_last {A : Type} (l : list A) (a : A) :
  nth_error (l ++ [a]) (List.length l) = Some a.
Proof. induction l as [|b l IH]; [reflexivity|exact IH]. Qed.

Lemma remove_nth_last {A : Type} (l : list A) (a : A) :
  remove_nth (List.length l) (l ++ [a]) = l.
Proof. induction l as [|b l IH]; [reflexivity|]. cbn. rewrite IH. reflexivity. Qed.

(** An event [CallWriteText arg w] of [step] is a [Call] directly followed
    by the [Settle] of the write it has made. *)
Lemma atomic_call_is_call_then_settle (s : Session) (arg : WriteTextArg)
    (w : Settled) :
  moment (Atomic (CallWriteText arg w)) s =
  match moment (Call arg) s with
  | Some s1 =>
    match writeText_before_await (memo_writeText (hook s)) arg with
    | Some _ => moment (Settle (List.length (pending s)) w) s1
    | None => Some s1
    end
  | None => None
  end.
Proof.
  destruct s as [h p]. unfold moment, step. cbn [hook pending].
  destruct (queued h) as [action|] eqn:Hq; [reflexivity|].
  rewrite writeText_split.
  destruct (writeText_before_await (memo_writeText h) arg) as [t|].
  - cbn [hook pending queued memo_writeText].
    rewrite nth_error_last, remove_nth_last.
    destruct (writeText_after_await (memo_writeText h) w) as [[action|]|];
      cbn [run_written run_setState]; rewrite ?Hq; reflexivity.
  - cbn [run_written run_setState]. rewrite <- Hq. destruct h; reflexivity.
Qed.

(** Whenever it settles, a rejected write sets the state of a mounted hook
    to [{error: e, copyStatus: 'rejected', transitionStatus: 'exited'}] and
    clears the timer. *)
Lemma settle_rejected (s : Session) (i : nat) (c : WriteTextClosure) (e : Error) :
  Hook_ok (hook s) -> mounted (hook s) = true -> queued (hook s) = None ->
  nth_error (pending s) i = Some c ->
  exists s',
    moment (Settle i (RejectedWith e)) s = Some s' /\
    state (hook s') = mkState (Some e) (mkStatusState rejected exited) /\
    timeoutId (hook s') = None /\ queued (hook s') = None /\
    memo_writeText (hook s') = memo_writeText (hook s) /\
    pending s' = remove_nth i (pending s).
Proof.
  intros Hok Hm Hq Hc. unfold moment. rewrite Hq, Hc.
  cbn [writeText_after_await].
  rewrite safeSetState_effect by assumption.
  rewrite effect_exited by reflexivity.
  eexists. split; [reflexivity|]. cbn. rewrite Hq. repeat split.
Qed.

Lemma after_await_State_ok (c : WriteTextClosure) (w : Settled)
    (action : UseClipboardState) :
  writeText_after_await c w = Some (Some action) -> State_ok action.
Proof.
  unfold writeText_after_await. destruct w as [|e].
  - destruct (getTransitionStatus _ _ _ _) as [ts|]; [|discriminate].
    destruct (narrow ts) eqn:Hts; intros H; [|discriminate H].
    injection H as <-. split; cbn; [discriminate|congruence].
  - intros H. injection H as <-. split; cbn; reflexivity.
Qed.

(** The invariants of the hook hold with pending writes too, wherever
    their settlements fall. *)
Lemma attainable_ok (s : Session) :
  attainable s -> Hook_ok (hook s) /\ State_ok (state (hook s)).
Proof.
  induction 1 as [o h Hm|m s s' _ [Hok Hst] Hmom].
  - exact (mount_ok o h Hm).
  - destruct m as [ev|arg|i w]; unfold moment in Hmom.
    + destruct (step ev (hook s)) as [h'|] eqn:Hstep; [|discriminate Hmom].
      injection Hmom as <-. exact (step_ok ev _ _ Hok Hst Hstep).
    + destruct (queued (hook s)) eqn:Hq; [discriminate Hmom|].
      destruct (writeText_before_await _ _) as [t|]; injection Hmom as <-;
        [|auto].
      split; [|exact Hst].
      apply Hook_ok_update; [exact Hok|left; reflexivity|right; reflexivity].
    + destruct (queued (hook s)) eqn:Hq; [discriminate Hmom|].
      destruct (nth_error (pending s) i) as [c|]; [|discriminate Hmom].
      destruct (writeText_after_await c w) as [[action|]|] eqn:Hafter;
        [| |discriminate Hmom].
      * destruct (safeSetState_ok action _ Hok) as (h' & E & Hok' & [Hs|Hs] & _).
        -- rewrite E in Hmom. injection Hmom as <-.
           split; [exact Hok'|]. cbn. rewrite Hs.
           exact (after_await_State_ok c w action Hafter).
        -- rewrite E in Hmom. injection Hmom as <-.
           split; [exact Hok'|]. cbn. rewrite Hs. exact Hst.
      * injection Hmom as <-. auto.
Qed.

Lemma play_attainable (ms : list Moment) :
  forall s s' : Session, attainable s -> play ms s = Some s' -> attainable s'.
Proof.
  induction ms as [|m ms IH]; intros s s' Ha Hplay; cbn in Hplay.
  - injection Hplay as <-. exact Ha.
  - destruct (moment m s) as [s1|] eqn:Hm; [|discriminate Hplay].
    apply (IH s1); [|exact Hplay].
    exact (attainable_moment m s s1 Ha Hm).
Qed.

Lemma after_moments_attainable (o : UseClipboardOptions) (ms : list Moment)
    (s : Session) :
  after_moments o ms = Some s -> attainable s.
Proof.
  unfold after_moments. destruct (mount o) as [h|] eqn:Hm; [|discriminate].
  apply play_attainable. exact (attainable_mount o h Hm).
Qed.

(** Every hook the events of [step] lead to is the hook of an attainable
    session with no write pending. *)
Lemma reachable_attainable (h : Hook) : reachable h -> attainable (mkSession h []).
Proof.
  induction 1 as [o h Hm|ev h h' _ IH Hstep].
  - exact (attainable_mount o h Hm).
  - apply (attainable_moment (Atomic ev) (mkSession h [])); [exact IH|].
    cbn. rewrite Hstep. reflexivity.
Qed.

(** A call past the guard, with a text to write, writes it and suspends. *)
Lemma call_past_guard (s : Session) (arg : WriteTextArg) :
  Hook_ok (hook s) -> queued (hook s) = None ->
  transitionStatus (status (closure_state (memo_writeText (hook s)))) = exited ->
  clipboardText arg (text (options (hook s))) <> EmptyString ->
  exists s',
    moment (Call arg) s = Some s' /\
    clipboard (hook s') = clipboardText arg (text (options (hook s))) :: clipboard (hook s) /\
    pending s' = (pending s ++ [memo_writeText (hook s)])%list /\
    state (hook s') = state (hook s) /\ timeoutId (hook s') = timeoutId (hook s).
Proof.
  intros Hok Hq Hc Hfull. unfold moment, writeText_before_await.
  rewrite Hq, Hc. cbn [narrow]. rewrite (ok_closure_text _ Hok).
  destruct (String.eqb_spec (clipboardText arg (text (options (hook s)))) EmptyString)
    as [Habs|_]; [contradiction|].
  eexists. split; [reflexivity|]. repeat split.
Qed.

Lemma past_guard_writes (h : Hook) (arg : WriteTextArg) (w : Settled) :
  Hook_ok h -> queued h = None ->
  transitionStatus (status (closure_state (memo_writeText h))) = exited ->
  clipboardText arg (text (options h)) <> EmptyString ->
  exists h', step (CallWriteText arg w) h = Some h' /\
    clipboard h' = clipboardText arg (text (options h)) :: clipboard h.
Proof.
  intros Hok Hq Hc Hfull.
  rewrite <- (ok_closure_text h Hok) in Hfull |- *.
  destruct (writeText_proceeds (memo_writeText h) arg w) as (r & Hw & Hwritten).
  - rewrite (ok_closure_nextStatusStates h Hok). apply Hok.
  - exact Hc.
  - exact Hfull.
  - destruct (step_writeText h arg w r Hok Hq Hw) as (h' & Hstep & _ & Hc' & _).
    exists h'. split; [exact Hstep|]. rewrite Hc', Hwritten. reflexivity.
Qed.

(** A call writes nothing, or the one text it resolves. *)
Lemma call_writes_at_most_its_text (s s' : Session) (arg : WriteTextArg) :
  Hook_ok (hook s) -> moment (Call arg) s = Some s' ->
  clipboard (hook s') = clipboard (hook s) \/
  clipboard (hook s') = clipboardText arg (text (options (hook s))) :: clipboard (hook s).
Proof.
  intros Hok Hmom. unfold moment, writeText_before_await in Hmom.
  destruct (queued (hook s)); [discriminate Hmom|].
  destruct (narrow _).
  { injection Hmom as <-. left. reflexivity. }
  rewrite (ok_closure_text _ Hok) in Hmom.
  destruct (String.eqb _ _); injection Hmom as <-; [left|right]; reflexivity.
Qed.

(** C5.  A rejected write sets the state to
    [{error: e, copyStatus: 'rejected', transitionStatus: 'exited'}] and the
    promise of [writeText] is fulfilled; but the next call can be blocked
    though the phase is [exited], because the guard reads the state its
    callback captured.  After [useClipboard({ text: 'hi', timeout: 2000 })]
    has mounted: a first call succeeds and the hook shows [entered]; a second
    call passes the guard of the callback created at mount and its write
    stays pending; a render with the text ['ho'] creates the callback anew,
    capturing [entered]; the pending write is rejected.  The state is then
    rejected and [exited], with no timer, and a further call, which has the
    text ['ho'] to write, returns at the guard and writes nothing. *)
Theorem rejected_write_then_blocked :
  exists s : Session,
    after_moments simple_options
      [Atomic (CallWriteText ArgEvent Fulfilled);
       Call ArgEvent;
       Atomic (Rerender (mkOptions (Some (TextString "ho")) (Some (TimeoutNumber 2000))));
       Settle 0 (RejectedWith "NotAllowedError")] = Some s /\
    state (hook s) =
      mkState (Some "NotAllowedError") (mkStatusState rejected exited) /\
    mounted (hook s) = true /\
    timeoutId (hook s) = None /\ queued (hook s) = None /\ pending s = [] /\
    clipboardText ArgEvent (text (options (hook s))) = "ho" /\
    transitionStatus (status (closure_state (memo_writeText (hook s)))) = entered /\
    writeText_before_await (memo_writeText (hook s)) ArgEvent = None /\
    moment (Call ArgEvent) s = Some s /\
    forall w : Settled, moment (Atomic (CallWriteText ArgEvent w)) s = Some s.
Proof.
  eexists. split; [vm_compute; reflexivity|].
  repeat (split; [reflexivity|]).
  intros w. destruct w; reflexivity.
Qed.

Lemma narrow_None (s : TransitionStatus) : narrow s = None -> s = exited.
Proof. destruct s; intros H; try discriminate H; reflexivity. Qed.

(** With no positive duration anywhere every status collapses to [exited]. *)
Lemma getTransitionStatus_all_nonpositive (n : NextStatusStates) (d : Durations)
    (s : TransitionStatus) :
  variant n -> (forall k, get d k <= 0) ->
  getTransitionStatus enough_fuel s n d = Some exited.
Proof.
  intros Hn Hd.
  pose proof (Hd seq_entering) as H1. pose proof (Hd seq_entered) as H2.
  pose proof (Hd seq_exiting) as H3. clear Hd.
  destruct d as [d1 d2 d3]. cbn in H1, H2, H3.
  destruct Hn as [-> | ->]; destruct s;
    unfold getTransitionStatus, enough_fuel; cbn; split_leb;
      first [reflexivity | exfalso; lia].
Qed.

Lemma writeText_all_nonpositive (c : WriteTextClosure) (arg : WriteTextArg) :
  variant (closure_nextStatusStates c) ->
  (forall k, get (closure_durations c) k <= 0) ->
  exists r, writeText c arg Fulfilled = Some r /\ run_setState r = None.
Proof.
  intros Hn Hd. unfold writeText.
  destruct (narrow (transitionStatus (status (closure_state c)))) eqn:Hts;
    [eexists; split; reflexivity|].
  destruct (String.eqb _ _); [eexists; split; reflexivity|].
  rewrite (narrow_None _ Hts). cbn [nextStatuses].
  rewrite (getTransitionStatus_all_nonpositive _ _ entering Hn Hd).
  cbn [narrow]. eexists; split; reflexivity.
Qed.

(** C6.  When no phase of the duration table has a positive duration, the
    first observable phase computed after a successful write is [exited],
    and the call of [writeText] updates no state and schedules no timer: the
    state, the pending timer and the count of [setTimeout] calls are what
    they were. *)
Theorem zero_durations_no_transition (h : Hook) (arg : WriteTextArg) :
  reachable h -> queued h = None ->
  (forall k, get (memo_durations h) k <= 0) ->
  getTransitionStatus enough_fuel (nextStatuses exited)
    (memo_nextStatusStates h) (memo_durations h) = Some exited /\
  exists (r : WriteTextRun) (h' : Hook),
    writeText (memo_writeText h) arg Fulfilled = Some r /\
    run_setState r = None /\
    step (CallWriteText arg Fulfilled) h = Some h' /\
    state h' = state h /\ timeoutId h' = timeoutId h /\
    timeouts h' = timeouts h /\ queued h' = None.
Proof.
  intros Hr Hq Hd. destruct (reachable_ok h Hr) as [Hok _].
  split.
  - apply getTransitionStatus_all_nonpositive; [apply Hok|exact Hd].
  - destruct (writeText_all_nonpositive (memo_writeText h) arg) as (r & Hw & Hset).
    + rewrite (ok_closure_nextStatusStates h Hok). apply Hok.
    + rewrite (ok_closure_durations h Hok). exact Hd.
    + destruct (step_writeText h arg Fulfilled r Hok Hq Hw)
        as (h' & Hstep & _ & _ & Hsame & _).
      destruct (Hsame Hset) as (H1 & H2 & H3 & H4).
      exists r, h'. repeat split; assumption.
Qed.

Lemma zero_durations_no_transition_witness :
  exists h : Hook,
    after instant_options [] = Some h /\
    (forall k, get (memo_durations h) k <= 0) /\
    getTransitionStatus enough_fuel (nextStatuses exited)
      (memo_nextStatusStates h) (memo_durations h) = Some exited /\
    exists (r : WriteTextRun) (h' : Hook),
      writeText (memo_writeText h) (ArgText (TextString "x")) Fulfilled = Some r /\
      run_setState r = None /\
      step (CallWriteText (ArgText (TextString "x")) Fulfilled) h = Some h' /\
      state h' = state h /\ timeoutId h' = timeoutId h /\
      timeouts h' = timeouts h /\ queued h' = None.
Proof.
  eexists. split; [vm_compute; reflexivity|].
  split; [intros k; destruct k; cbn; lia|].
  apply zero_durations_no_transition.
  - apply (after_reachable instant_options []). vm_compute. reflexivity.
  - reflexivity.
  - intros k; destruct k; cbn; lia.
Defined.

Lemma or_else_empty (a : string) : or_else a EmptyString = a.
Proof. unfold or_else. destruct (String.eqb_spec a EmptyString); congruence. Qed.

(** C8.  The text [writeText] writes is its argument when that is a string
    or a number, and the configured text otherwise (an event object or no
    argument).  A call that is past the guard and resolves a text that is
    not empty hands that text to the clipboard, whether its write settles
    at once or stays pending; no call hands the clipboard anything else; and
    a call that resolves the empty text leaves everything as it is: no
    clipboard write, no state update.  (Numbers are safe integers, which the
    code prints in plain decimal.) *)
Theorem writeText_text_resolution :
  (forall (t : Text) (o : option Text), clipboardText (ArgText t) o = Text_toString t) /\
  (forall o : option Text,
      clipboardText ArgEvent o = match o with
                                 | Some t => Text_toString t
                                 | None => EmptyString
                                 end /\
      clipboardText ArgUndefined o = clipboardText ArgEvent o) /\
  (forall (s : Session) (arg : WriteTextArg),
      attainable s -> queued (hook s) = None ->
      transitionStatus (status (closure_state (memo_writeText (hook s)))) = exited ->
      resolves_safely arg (text (options (hook s))) ->
      clipboardText arg (text (options (hook s))) <> EmptyString ->
      (exists s',
          moment (Call arg) s = Some s' /\
          clipboard (hook s') =
            clipboardText arg (text (options (hook s))) :: clipboard (hook s) /\
          state (hook s') = state (hook s)) /\
      (forall w : Settled,
          exists s',
            moment (Atomic (CallWriteText arg w)) s = Some s' /\
            clipboard (hook s') =
              clipboardText arg (text (options (hook s))) :: clipboard (hook s))) /\
  (forall (s s' : Session) (arg : WriteTextArg) (m : Moment),
      attainable s ->
      resolves_safely arg (text (options (hook s))) ->
      m = Call arg \/ (exists w, m = Atomic (CallWriteText arg w)) ->
      moment m s = Some s' ->
      clipboard (hook s') = clipboard (hook s) \/
      clipboard (hook s') =
        clipboardText arg (text (options (hook s))) :: clipboard (hook s)) /\
  (forall (s : Session) (arg : WriteTextArg),
      attainable s -> queued (hook s) = None ->
      clipboardText arg (text (options (hook s))) = EmptyString ->
      moment (Call arg) s = Some s /\
      forall w : Settled, moment (Atomic (CallWriteText arg w)) s = Some s).
Proof.
  split; [reflexivity|]. split; [|split; [|split]].
  - intros [t|]; cbn; [rewrite or_else_empty|]; split; reflexivity.
  - intros s arg Ha Hq Hc _ Hfull. destruct (attainable_ok s Ha) as [Hok _]. split.
    + destruct (call_past_guard s arg Hok Hq Hc Hfull) as (s' & E & Hcl & _ & Hs & _).
      exists s'. auto.
    + intros w.
      destruct (past_guard_writes (hook s) arg w Hok Hq Hc Hfull) as (h' & E & Hcl).
      exists (mkSession h' (pending s)). cbn. rewrite E. auto.
  - intros s s' arg m Ha _ Hm Hmom. destruct (attainable_ok s Ha) as [Hok _].
    destruct Hm as [-> | (w & ->)].
    + exact (call_writes_at_most_its_text s s' arg Hok Hmom).
    + cbn in Hmom.
      destruct (step (CallWriteText arg w) (hook s)) as [h'|] eqn:Hstep;
        [|discriminate Hmom].
      injection Hmom as <-. cbn [hook].
      destruct (queued (hook s)) as [q|] eqn:Hq.
      { unfold step in Hstep. rewrite Hq in Hstep. discriminate Hstep. }
      destruct (writeText (memo_writeText (hook s)) arg w) as [r|] eqn:Hw.
      * destruct (step_writeText (hook s) arg w r Hok Hq Hw) as (h1 & E & _ & Hc & _).
        rewrite E in Hstep. injection Hstep as <-. rewrite Hc.
        destruct (run_written r) as [t|] eqn:Ht; [right|left; reflexivity].
        destruct (writeText_written _ _ _ _ _ Hw Ht) as (_ & -> & _).
        rewrite (ok_closure_text _ Hok). reflexivity.
      * unfold step in Hstep. rewrite Hq, Hw in Hstep. discriminate Hstep.
  - intros s arg Ha Hq Hempty. destruct (attainable_ok s Ha) as [Hok _]. split.
    + unfold moment, writeText_before_await. rewrite Hq.
      rewrite (ok_closure_text _ Hok), Hempty. cbn.
      destruct (narrow _); reflexivity.
    + intros w. cbn. unfold step. rewrite Hq.
      rewrite writeText_empty by (rewrite (ok_closure_text _ Hok); exact Hempty).
      cbn. rewrite <- Hq. destruct s as [h p]. destruct h; reflexivity.
Qed.

Lemma writeText_text_resolution_witness :
  exists s s1 s2 : Session,
    after_moments (mkOptions (Some (TextString "hi")) (Some (TimeoutNumber 2000))) []
      = Some s /\
    moment (Call (ArgText (TextNumber 42))) s = Some s1 /\
    clipboard (hook s1) = ["42"] /\
    moment (Call ArgEvent) s = Some s2 /\
    clipboard (hook s2) = ["hi"] /\
    moment (Call (ArgText (TextString EmptyString))) s = Some s.
Proof.
  eexists.
  match goal with
  | |- exists s1 s2, ?a = Some ?s /\ _ =>
      assert (Ha : a = Some s) by (vm_compute; reflexivity)
  end.
  pose proof (after_moments_attainable _ _ _ Ha) as Hatt.
  pose proof (proj1 (proj2 (proj2 writeText_text_resolution))) as Hwrites.
  pose proof (proj2 (proj2 (proj2 (proj2 writeText_text_resolution)))) as Hempty.
  assert (Hsafe : safe_integer 42) by (unfold safe_integer; cbn; lia).
  destruct (Hwrites _ (ArgText (TextNumber 42)) Hatt eq_refl eq_refl Hsafe)
    as [(s1 & E1 & C1 & _) _]; [discriminate|].
  destruct (Hwrites _ ArgEvent Hatt eq_refl eq_refl I)
    as [(s2 & E2 & C2 & _) _]; [discriminate|].
  exists s1, s2.
  split; [exact Ha|]. split; [exact E1|]. split; [exact C1|].
  split; [exact E2|]. split; [exact C2|].
  exact (proj1 (Hempty _ (ArgText (TextString EmptyString)) Hatt eq_refl eq_refl)).
Defined.

(** ** The in-flight guard *)

(** As long as the callback was created by the render of the current state,
    the guard does what its comment says: with a sequence in flight the call
    changes nothing. *)
Lemma writeText_in_flight_fresh (h : Hook) (arg : WriteTextArg) (w : Settled) :
  queued h = None ->
  closure_state (memo_writeText h) = state h ->
  transitionStatus (status (state h)) <> exited ->
  step (CallWriteText arg w) h = Some h.
Proof.
  intros Hq Hfresh Hne. unfold step. rewrite Hq.
  rewrite writeText_blocked by (rewrite Hfresh; exact Hne).
  cbn. rewrite <- Hq. destruct h; reflexivity.
Qed.

(** The state a successful [writeText] asks for is never a status it would
    skip. *)
Lemma writeText_state_observable (c : WriteTextClosure) (arg : WriteTextArg)
    (r : WriteTextRun) (s : UseClipboardState) :
  writeText c arg Fulfilled = Some r -> run_setState r = Some s ->
  observable (closure_durations c) (transitionStatus (status s)).
Proof.
  unfold writeText. intros H Hs.
  destruct (narrow (transitionStatus (status (closure_state c)))).
  { injection H as <-. discriminate Hs. }
  destruct (String.eqb _ _).
  { injection H as <-. discriminate Hs. }
  destruct (getTransitionStatus _ _ _ _) as [ts|] eqn:Hts; [|discriminate H].
  destruct (narrow ts); injection H as <-; [|discriminate Hs].
  injection Hs as <-. cbn.
  destruct (loop_first_observable _ _ _ _ 0 _ (Z.le_refl 0) Hts) as (k & _ & Ho & _).
  exact Ho.
Qed.

(** C1.  The guard of [writeText] reads the state its callback captured,
    and [state] is not a dependency of [useCallback]: after
    [useClipboard({ text: 'hi', timeout: 2000 })] has mounted and a first
    call of [writeText] has succeeded, the hook shows [entered], yet a second
    call writes the clipboard again and replaces the pending timer. *)
Theorem writeText_guard_reads_captured_state :
  exists h h' : Hook,
    after simple_options [CallWriteText ArgUndefined Fulfilled] = Some h /\
    transitionStatus (status (state h)) = entered /\
    transitionStatus (status (closure_state (memo_writeText h))) = exited /\
    step (CallWriteText ArgUndefined Fulfilled) h = Some h' /\
    clipboard h = ["hi"] /\
    clipboard h' = ["hi"; "hi"] /\
    timeoutId h <> timeoutId h' /\
    timeouts h' = S (timeouts h).
Proof.
  eexists. eexists.
  split; [vm_compute; reflexivity|].
  split; [reflexivity|]. split; [reflexivity|].
  split; [vm_compute; reflexivity|].
  split; [reflexivity|]. split; [reflexivity|].
  split; [discriminate|reflexivity].
Qed.

(** C3.  The timer's callback adopts the next status of the map as it is,
    without skipping: with
    [timeout: { entering: 100, entered: 0, exiting: 100 }], once the timer
    of [entering] has fired the hook shows [entered], whose duration is 0,
    and keeps showing it for the 100 ms of the timer it has set for
    [exiting]. *)
Theorem timer_adopts_unskipped_status :
  exists (h : Hook) (t : Timer),
    after sequence_options [CallWriteText ArgUndefined Fulfilled; TimeoutFires]
      = Some h /\
    reachable h /\
    transitionStatus (status (state h)) = entered /\
    get (memo_durations h) seq_entered = 0 /\
    ~ observable (memo_durations h) (transitionStatus (status (state h))) /\
    queued h = None /\
    timeoutId h = Some t /\
    timer_status t = seq_exiting /\
    timer_delay t = 100.
Proof.
  eexists. eexists.
  split; [vm_compute; reflexivity|].
  split.
  { apply (after_reachable sequence_options
             [CallWriteText ArgUndefined Fulfilled; TimeoutFires]).
    vm_compute. reflexivity. }
  split; [reflexivity|]. split; [reflexivity|].
  split; [cbn; lia|].
  split; [reflexivity|]. split; [reflexivity|].
  split; reflexivity.
Qed.

(** ** The fingerprint of the timeout *)

(** C2, as stated, fails in both directions.  An absent timeout and the
    timeout [0] resolve to the same triple and have different fingerprints;
    the maps [{entering: 1, entered: 23, exiting: 4}] and
    [{entering: 12, entered: 3, exiting: 4}] resolve to different triples and
    have the same fingerprint, the string [1234]. *)
Lemma fingerprint_not_the_resolved_triple :
  (resolved_triple None = resolved_triple (Some (TimeoutNumber 0)) /\
   hasTimeoutChange None <> hasTimeoutChange (Some (TimeoutNumber 0))) /\
  (hasTimeoutChange (Some (TimeoutSequence (mkPerStatus (Some 1) (Some 23) (Some 4)))) =
   hasTimeoutChange (Some (TimeoutSequence (mkPerStatus (Some 12) (Some 3) (Some 4)))) /\
   resolved_triple (Some (TimeoutSequence (mkPerStatus (Some 1) (Some 23) (Some 4)))) <>
   resolved_triple (Some (TimeoutSequence (mkPerStatus (Some 12) (Some 3) (Some 4))))) /\
  ~ (forall c1 c2 : option Timeout,
        hasTimeoutChange c1 = hasTimeoutChange c2 <->
        resolved_triple c1 = resolved_triple c2).
Proof.
  split; [split; [reflexivity|discriminate]|].
  split; [split; [reflexivity|discriminate]|].
  intros Hiff.
  pose proof (proj2 (Hiff None (Some (TimeoutNumber 0))) eq_refl) as Habs.
  discriminate Habs.
Qed.

(** C2, amended.  A render recomputes the duration table and the next-phase
    map exactly when the fingerprint of the supplied timeout differs from
    that of the previous render, and with an equal fingerprint a render that
    brings no new state leaves the pending timer alone.  A configuration has
    the fingerprint of every configuration of equal value; a number or an
    absent timeout never has the fingerprint of a per-phase map; two
    configurations that are each a number or absent and have one fingerprint
    resolve to one duration table and one next-phase map.  The fingerprint
    is that of the supplied value, not of the resolved triple: two
    configurations of one resolved triple may have different fingerprints. *)
Theorem fingerprint_recomputation :
  (forall (o : UseClipboardOptions) (b : bool) (h h' : Hook),
      render o b h = Some h' ->
      (hasTimeoutChange (timeout o) = memo_hasTimeoutChange h ->
       memo_durations h' = memo_durations h /\
       memo_nextStatusStates h' = memo_nextStatusStates h /\
       (b = false -> timeoutId h' = timeoutId h /\ timeouts h' = timeouts h)) /\
      (hasTimeoutChange (timeout o) <> memo_hasTimeoutChange h ->
       memo_durations h' = durations (timeout o) /\
       memo_nextStatusStates h' = nextStatusStates (timeout o))) /\
  (forall c : option Timeout,
      Fingerprint_is (hasTimeoutChange c) (hasTimeoutChange c) = true) /\
  (forall c1 c2 : option Timeout,
      not_object c1 -> ~ not_object c2 ->
      hasTimeoutChange c1 <> hasTimeoutChange c2) /\
  (forall c1 c2 : option Timeout,
      not_object c1 -> not_object c2 ->
      hasTimeoutChange c1 = hasTimeoutChange c2 ->
      durations c1 = durations c2 /\ nextStatusStates c1 = nextStatusStates c2) /\
  (exists c1 c2 : option Timeout,
      resolved_triple c1 = resolved_triple c2 /\
      hasTimeoutChange c1 <> hasTimeoutChange c2).
Proof.
  split; [|split; [|split; [|split]]].
  - intros o b h h' Hrender. unfold render in Hrender.
    destruct (Fingerprint_is (hasTimeoutChange (timeout o)) (memo_hasTimeoutChange h))
      eqn:Hfp.
    + pose proof (proj1 (Fingerprint_is_eq _ _) Hfp) as Heq.
      destruct (useMemos_unchanged o h Hfp) as [Hd Hn].
      split; [intros _|intros Hne; contradiction].
      destruct b; cbn in Hrender.
      * destruct (effect_frame _ _ Hrender) as (_ & _ & _ & _ & Hd' & Hn' & _).
        split; [congruence|]. split; [congruence|]. intros Habs; discriminate Habs.
      * injection Hrender as <-. split; [exact Hd|]. split; [exact Hn|].
        intros _. split; reflexivity.
    + split.
      { intros Heq. apply Fingerprint_is_eq in Heq. congruence. }
      intros _. destruct (useMemos_changed o h Hfp) as (Hd & Hn & _).
      rewrite orb_true_r in Hrender.
      destruct (effect_frame _ _ Hrender) as (_ & _ & _ & _ & Hd' & Hn' & _).
      split; congruence.
  - intros c. apply Fingerprint_is_eq. reflexivity.
  - intros [[m1|t1]|] [[m2|t2]|] H1 H2; cbn in H1, H2; try contradiction;
      try (exfalso; apply H2; exact I); cbn; discriminate.
  - intros [[m1|t1]|] [[m2|t2]|] H1 H2 Heq; cbn in H1, H2; try contradiction;
      try discriminate Heq.
    + injection Heq as ->. split; reflexivity.
    + split; reflexivity.
  - exists None, (Some (TimeoutNumber 0)). split; [reflexivity|discriminate].
Qed.

Lemma fingerprint_recomputation_witness :
  exists h h' : Hook,
    after story_options [CallWriteText ArgUndefined Fulfilled] = Some h /\
    render story_options false h = Some h' /\
    hasTimeoutChange (timeout story_options) = memo_hasTimeoutChange h /\
    memo_durations h' = memo_durations h /\
    memo_nextStatusStates h' = memo_nextStatusStates h /\
    (false = false -> timeoutId h' = timeoutId h /\ timeouts h' = timeouts h).
Proof.
  eexists. eexists.
  split; [vm_compute; reflexivity|].
  split; [vm_compute; reflexivity|].
  split; [reflexivity|].
  refine (proj1 (proj1 fingerprint_recomputation story_options false _ _ _) _).
  - vm_compute. reflexivity.
  - reflexivity.
Defined.

(** ** The stories, run *)

(** Simple Clipboard: [timeout: 2000].  A successful write shows
    [(resolved, entered)] with a 2000 ms timer; when it fires the hook is
    back to [(idle, exited)] with no timer. *)
Example simple_round_trip :
  exists h1 h2 : Hook,
    after simple_options [CallWriteText ArgEvent Fulfilled] = Some h1 /\
    status (state h1) = mkStatusState resolved entered /\
    option_map timer_delay (timeoutId h1) = Some 2000 /\
    step TimeoutFires h1 = Some h2 /\
    state h2 = defaultState /\
    timeoutId h2 = None /\ queued h2 = None.
Proof.
  eexists. eexists.
  split; [vm_compute; reflexivity|].
  split; [reflexivity|]. split; [reflexivity|].
  split; [vm_compute; reflexivity|].
  repeat split.
Qed.

(** Sequence Clipboard: [timeout: { entering: 0, entered: 2000, exiting: 250 }].
    [entering] is skipped; [entered] lasts 2000 ms, [exiting] 250 ms. *)
Example sequence_round_trip :
  exists h1 h2 h3 : Hook,
    after story_options [CallWriteText ArgEvent Fulfilled] = Some h1 /\
    status (state h1) = mkStatusState resolved entered /\
    option_map timer_delay (timeoutId h1) = Some 2000 /\
    step TimeoutFires h1 = Some h2 /\
    status (state h2) = mkStatusState resolved exiting /\
    option_map timer_delay (timeoutId h2) = Some 250 /\
    step TimeoutFires h2 = Some h3 /\
    state h3 = defaultState /\
    timeoutId h3 = None /\ queued h3 = None.
Proof.
  eexists. eexists. eexists.
  split; [vm_compute; reflexivity|].
  split; [reflexivity|]. split; [reflexivity|].
  split; [vm_compute; reflexivity|].
  split; [reflexivity|]. split; [reflexivity|].
  split; [vm_compute; reflexivity|].
  repeat split.
Qed.

(** With [timeout: { entered: 2000 }] the timer of [entered] sets the state
    to [(resolved, exiting)], a status of duration 0: it is rendered, the
    effect asks for the default state, and the next render shows it. *)
Example zero_exiting_is_rendered :
  exists h1 h2 : Hook,
    after (mkOptions (Some (TextString "hi"))
             (Some (TimeoutSequence (mkPerStatus None (Some 2000) None))))
      [CallWriteText ArgEvent Fulfilled; TimeoutFires] = Some h1 /\
    status (state h1) = mkStatusState resolved exiting /\
    get (memo_durations h1) seq_exiting = 0 /\
    timeoutId h1 = None /\
    queued h1 = Some defaultState /\
    step StateUpdate h1 = Some h2 /\
    state h2 = defaultState /\ queued h2 = None.
Proof.
  eexists. eexists.
  split; [vm_compute; reflexivity|].
  split; [reflexivity|]. split; [reflexivity|].
  split; [reflexivity|]. split; [reflexivity|].
  split; [vm_compute; reflexivity|].
  repeat split.
Qed.

(** ** Further properties of [getTransitionStatus] *)

(** X1.  Whatever the next-status map, a call of [getTransitionStatus]
    that returns at all returns within [enough_fuel] evaluations of the loop
    condition, with the same result for any larger number; a call that has
    not returned by then never returns.  A map with a cycle of non-positive
    durations, which the hook never builds, makes such a call. *)
Theorem getTransitionStatus_decided_by_enough_fuel :
  (forall (n : NextStatusStates) (d : Durations) (s : TransitionStatus)
          (fuel : nat) (r : TransitionStatus),
      getTransitionStatus fuel s n d = Some r ->
      forall fuel' : nat, (enough_fuel <= fuel')%nat ->
        getTransitionStatus fuel' s n d = Some r) /\
  (forall (n : NextStatusStates) (d : Durations) (s : TransitionStatus),
      getTransitionStatus enough_fuel s n d = None ->
      forall fuel : nat, getTransitionStatus fuel s n d = None) /\
  (forall fuel : nat,
      getTransitionStatus fuel entering
        (mkPerStatus (mkStatusState resolved entered)
                     (mkStatusState resolved entering)
                     (mkStatusState idle exited))
        (mkPerStatus 0 0 0) = None).
Proof.
  split; [|split].
  - intros n d s fuel r H fuel' Hle.
    apply getTransitionStatus_enough; [exact Hle|].
    exact (getTransitionStatus_fuel_complete n d s fuel r H).
  - intros n d s H fuel. exact (loop_stuck_forever n d fuel s H).
  - intros fuel. apply loop_stuck_forever. reflexivity.
Qed.

Lemma narrow_Some (s : TransitionStatus) (k : SequenceStatus) :
  narrow s = Some k -> s = of_sequence k /\ s <> exited.
Proof.
  destruct s; cbn; intros H; try discriminate H; injection H as <-;
    split; try reflexivity; discriminate.
Qed.

(** Following either variant of the map from a status in flight moves
    strictly forward. *)
Lemma follow_rank (n : NextStatusStates) (k : SequenceStatus) :
  variant n ->
  (rank (transitionStatus (get n k)) < rank (of_sequence k))%nat.
Proof. intros [-> | ->]; destruct k; cbn; lia. Qed.

Lemma getTransitionStatus_rank (n : NextStatusStates) (d : Durations)
    (s r : TransitionStatus) (fuel : nat) :
  variant n ->
  getTransitionStatus fuel s n d = Some r ->
  (rank r <= rank s)%nat.
Proof.
  intros Hn H. apply getTransitionStatus_fuel_complete in H.
  destruct (loop_first_observable n d enough_fuel s 0 r (Z.le_refl 0) H)
    as (j & <- & _ & _). clear H.
  induction j as [|j IH]; [cbn; lia|].
  change (Nat.iter (S j) (follow n) s) with (follow n (Nat.iter j (follow n) s)).
  unfold follow at 1.
  destruct (narrow (Nat.iter j (follow n) s)) as [k|] eqn:Hk; [|exact IH].
  pose proof (follow_rank n k Hn) as Hlt.
  destruct (narrow_Some _ _ Hk) as [Heq _]. rewrite Heq in IH. lia.
Qed.

(** X2.  With either variant of the map [getTransitionStatus] never moves
    backwards in the cycle: its result is the start status or a later one,
    and it is [entering] only when the start is. *)
Theorem getTransitionStatus_never_backwards (n : NextStatusStates) (d : Durations)
    (s r : TransitionStatus) (fuel : nat) :
  variant n ->
  getTransitionStatus fuel s n d = Some r ->
  (rank r <= rank s)%nat /\ (r = entering -> s = entering).
Proof.
  intros Hn H. apply getTransitionStatus_fuel_complete in H. revert H.
  destruct Hn as [-> | ->]; destruct d as [d1 d2 d3]; destruct s;
    unfold getTransitionStatus, enough_fuel; cbn; split_leb;
      intros Hr; injection Hr as <-; cbn; (split; [lia|]);
        first [reflexivity | discriminate].
Qed.

Lemma getTransitionStatus_never_backwards_witness :
  (rank entered <= rank entering)%nat /\ (entered = entering -> entering = entering).
Proof.
  apply (getTransitionStatus_never_backwards spec_sequenceMap
           (mkPerStatus 0 2000 250) entering entered 4).
  - left. reflexivity.
  - reflexivity.
Defined.

(** Either variant pairs [exited] with [idle]. *)
Lemma variant_exited_idle (n : NextStatusStates) (k : SequenceStatus) :
  variant n -> transitionStatus (get n k) = exited -> copyStatus (get n k) = idle.
Proof. intros [-> | ->]; destruct k; cbn; intros H; try discriminate H; reflexivity. Qed.

(** ** The printed form of a number *)

Lemma Z_to_int_not_nil (z : Z) :
  Z.to_int z <> Decimal.Pos Decimal.Nil /\ Z.to_int z <> Decimal.Neg Decimal.Nil.
Proof.
  destruct z as [|p|p]; cbn; split; try discriminate;
    intros H; injection H as H; exact (Unsigned.to_uint_nonnil p H).
Qed.

Lemma Number_toString_parse (z : Z) :
  NilZero.int_of_string (Number_toString z) = Some (Z.to_int z).
Proof.
  unfold Number_toString. destruct (Z_to_int_not_nil z) as [H1 H2].
  apply NilZero.isi; assumption.
Qed.

Lemma Number_toString_inj (z1 z2 : Z) :
  Number_toString z1 = Number_toString z2 -> z1 = z2.
Proof.
  intros H. pose proof (Number_toString_parse z1) as H1.
  rewrite H, Number_toString_parse in H1. injection H1 as H1.
  rewrite <- (DecimalZ.of_to z1), <- (DecimalZ.of_to z2), H1. reflexivity.
Qed.

Lemma Number_toString_nonempty (z : Z) : Number_toString z <> EmptyString.
Proof.
  intros H. pose proof (Number_toString_parse z) as Hp.
  rewrite H in Hp. discriminate Hp.
Qed.

Lemma interpolate_inj (a b : option Z) : interpolate a = interpolate b -> a = b.
Proof.
  destruct a as [x|], b as [y|]; cbn; intros H.
  - f_equal. exact (Number_toString_inj x y H).
  - pose proof (Number_toString_parse x) as Hp. rewrite H in Hp. discriminate Hp.
  - pose proof (Number_toString_parse y) as Hp. rewrite <- H in Hp. discriminate Hp.
  - reflexivity.
Qed.

Lemma append_inj_prefix (a x y : string) : (a ++ x = a ++ y)%string -> x = y.
Proof.
  induction a as [|c a IH]; cbn; intros H; [exact H|].
  injection H as H. exact (IH H).
Qed.

Lemma append_length (x y : string) :
  String.length (x ++ y) = (String.length x + String.length y)%nat.
Proof. induction x as [|c x IH]; cbn; [reflexivity|]. rewrite IH. reflexivity. Qed.

Lemma append_inj_suffix (c : string) :
  forall x y : string, (x ++ c = y ++ c)%string -> x = y.
Proof.
  induction x as [|a x IH]; intros [|b y] H; cbn in H.
  - reflexivity.
  - exfalso. apply (f_equal String.length) in H. cbn in H.
    rewrite append_length in H. lia.
  - exfalso. apply (f_equal String.length) in H. cbn in H.
    rewrite append_length in H. lia.
  - injection H as -> H. f_equal. exact (IH y H).
Qed.

(** X10.  Two per-phase maps that differ in one field only never have the
    same fingerprint: whether a duration is changed, added or removed, the
    duration table is recomputed. *)
Theorem fingerprint_separates_one_field (t1 t2 : SequenceTimeout) :
  differ_in_one_field t1 t2 -> t1 <> t2 ->
  hasTimeoutChange (Some (TimeoutSequence t1)) <>
  hasTimeoutChange (Some (TimeoutSequence t2)).
Proof.
  intros Hone Hne Hfp. apply Hne. clear Hne.
  destruct t1 as [a1 b1 c1], t2 as [a2 b2 c2].
  unfold differ_in_one_field in Hone. cbn in Hone, Hfp. injection Hfp as Hfp.
  destruct Hone as [[<- <-]|[[<- <-]|[<- <-]]].
  - apply append_inj_prefix, append_inj_prefix, interpolate_inj in Hfp.
    congruence.
  - apply append_inj_prefix, append_inj_suffix, interpolate_inj in Hfp.
    congruence.
  - apply append_inj_suffix, interpolate_inj in Hfp. congruence.
Qed.

Lemma fingerprint_separates_one_field_witness :
  hasTimeoutChange (Some (TimeoutSequence (mkPerStatus None (Some 2000) (Some 250)))) <>
  hasTimeoutChange (Some (TimeoutSequence (mkPerStatus (Some 0) (Some 2000) (Some 250)))).
Proof.
  apply fingerprint_separates_one_field.
  - right; right. split; reflexivity.
  - discriminate.
Defined.

(** ** Further invariants of the hook *)

(** The two states [writeText] can ask for. *)
Lemma writeText_setState_cases (c : WriteTextClosure) (arg : WriteTextArg)
    (w : Settled) (r : WriteTextRun) (s : UseClipboardState) :
  writeText c arg w = Some r -> run_setState r = Some s ->
  (exists e, w = RejectedWith e /\ s = mkState (Some e) (mkStatusState rejected exited)) \/
  (exists ts k, w = Fulfilled /\ narrow ts = Some k /\
     getTransitionStatus enough_fuel entering (closure_nextStatusStates c)
       (closure_durations c) = Some ts /\
     s = mkState None (mkStatusState resolved ts)).
Proof.
  unfold writeText. intros H Hs.
  destruct (narrow (transitionStatus (status (closure_state c)))) eqn:Hn.
  { injection H as <-. discriminate Hs. }
  rewrite (narrow_None _ Hn) in H. cbn [nextStatuses] in H.
  destruct (String.eqb _ _).
  { injection H as <-. discriminate Hs. }
  destruct w as [|e].
  - destruct (getTransitionStatus _ _ _ _) as [ts|] eqn:Hts; [|discriminate H].
    destruct (narrow ts) as [k|] eqn:Hk; injection H as <-; [|discriminate Hs].
    injection Hs as <-. right. exists ts, k. auto.
  - injection H as <-. injection Hs as <-. left. exists e. auto.
Qed.

(** The state after an event: the state before it, the default state, the
    state of a rejected write, the state of a successful write, or the next
    state the map gives for some status. *)
Lemma step_state_cases (ev : Event) (h h' : Hook) :
  Hook_ok h -> step ev h = Some h' ->
  state h' = state h \/
  state h' = defaultState \/
  (exists e, state h' = mkState (Some e) (mkStatusState rejected exited)) \/
  (exists ts k, narrow ts = Some k /\
     getTransitionStatus enough_fuel entering (memo_nextStatusStates h)
       (memo_durations h) = Some ts /\
     state h' = mkState None (mkStatusState resolved ts)) \/
  (exists k,
     state h' = mkState None
                  (mkStatusState (copyStatus (get (memo_nextStatusStates h) k))
                     (transitionStatus (get (memo_nextStatusStates h) k)))).
Proof.
  intros Hok Hstep. unfold step in Hstep.
  destruct (queued h) as [action|] eqn:Hq.
  - destruct ev; try discriminate Hstep.
    destruct (ok_queued h Hok action Hq) as [-> Hm].
    pose proof (Hook_ok_update h (state h) (timeoutId h) None (timeouts h) (clipboard h)
                  Hok (or_introl eq_refl) (or_intror eq_refl)) as Hok1.
    destruct (safeSetState_ok defaultState _ Hok1) as (h1 & E1 & _ & _ & Hs & _).
    rewrite E1 in Hstep. injection Hstep as <-.
    right; left. exact (Hs Hm).
  - destruct ev as [arg w| | |o|]; try discriminate Hstep.
    + destruct (writeText (memo_writeText h) arg w) as [r|] eqn:Hw;
        [|discriminate Hstep].
      match type of Hstep with
      | context [mkHook _ _ _ _ _ _ _ _ _ _ ?log] =>
          pose proof (Hook_ok_update h (state h) (timeoutId h) None
                        (timeouts h) log Hok (or_introl eq_refl) (or_intror eq_refl))
            as Hok1
      end.
      destruct (run_setState r) as [action|] eqn:Hact.
      * destruct (safeSetState_ok action _ Hok1) as (h1 & E1 & _ & [Hs|Hs] & _);
          rewrite E1 in Hstep; injection Hstep as <-; [|left; rewrite Hs; reflexivity].
        rewrite Hs.
        destruct (writeText_setState_cases _ _ _ _ _ Hw Hact)
          as [(e & _ & ->)|(ts & k & _ & Hk & Hts & ->)].
        -- right; right; left. exists e. reflexivity.
        -- right; right; right; left. exists ts, k.
           rewrite (ok_closure_nextStatusStates h Hok) in Hts.
           rewrite (ok_closure_durations h Hok) in Hts. auto.
      * injection Hstep as <-. left. reflexivity.
    + destruct (timeoutId h) as [t|] eqn:Ht; [|discriminate Hstep].
      pose proof (Hook_ok_update h (state h) None None (timeouts h) (clipboard h)
                    Hok (or_intror eq_refl) (or_intror eq_refl)) as Hok1.
      match type of Hstep with
      | safeSetState ?a _ = _ =>
          destruct (safeSetState_ok a _ Hok1) as (h1 & E1 & _ & [Hs|Hs] & _)
      end; rewrite E1 in Hstep; injection Hstep as <-.
      * right; right; right; right. exists (timer_status t).
        destruct (ok_timer h Hok t Ht) as (<- & _). exact Hs.
      * left. rewrite Hs. reflexivity.
    + destruct (mounted h); [|discriminate Hstep].
      destruct (render_ok o false h Hok) as (h1 & E1 & _ & Hs & _).
      rewrite E1 in Hstep. injection Hstep as <-. left. exact Hs.
    + destruct (mounted h); [|discriminate Hstep].
      injection Hstep as <-. left. reflexivity.
Qed.

(** The three forms of a reachable state: the default state, the state of
    a rejected write, the state of a sequence in flight. *)
Lemma reachable_state_forms (h : Hook) :
  reachable h ->
  state h = defaultState \/
  (exists e, state h = mkState (Some e) (mkStatusState rejected exited)) \/
  (exists ts, ts <> exited /\ state h = mkState None (mkStatusState resolved ts)).
Proof.
  induction 1 as [o h Hm|ev h h' Hr IH Hstep].
  - rewrite mount_eq in Hm. injection Hm as <-. left. reflexivity.
  - destruct (reachable_ok h Hr) as [Hok _].
    destruct (step_state_cases ev h h' Hok Hstep)
      as [->|[->|[(e & ->)|[(ts & k & Hk & _ & ->)|(k & ->)]]]].
    + exact IH.
    + left. reflexivity.
    + right; left. exists e. reflexivity.
    + right; right. exists ts. split; [exact (proj2 (narrow_Some ts k Hk))|reflexivity].
    + destruct (ok_nextStatusStates h Hok) as [-> | ->]; destruct k; cbn;
        first [ left; reflexivity
              | right; right; eexists; split; [|reflexivity]; discriminate ].
Qed.

(** X3.  In every reachable hook [status.copy] is ['resolved'] exactly while
    [status.transition] is not ['exited'], and ['idle'] comes with a null
    error. *)
Theorem resolved_while_in_flight (h : Hook) :
  reachable h ->
  (copyStatus (status (state h)) = resolved <->
   transitionStatus (status (state h)) <> exited) /\
  (copyStatus (status (state h)) = idle -> error (state h) = None).
Proof.
  intros Hr.
  destruct (reachable_state_forms h Hr) as [->|[(e & ->)|(ts & Hne & ->)]]; cbn.
  - split; [split|reflexivity]; [discriminate|].
    intros Habs. contradiction Habs. reflexivity.
  - split; [split|discriminate]; [discriminate|].
    intros Habs. contradiction Habs. reflexivity.
  - split; [split|discriminate]; [intros _; exact Hne|reflexivity].
Qed.

Lemma resolved_while_in_flight_witness :
  exists h : Hook,
    after story_options [CallWriteText ArgEvent Fulfilled; TimeoutFires] = Some h /\
    transitionStatus (status (state h)) = exiting /\
    ((copyStatus (status (state h)) = resolved <->
      transitionStatus (status (state h)) <> exited) /\
     (copyStatus (status (state h)) = idle -> error (state h) = None)).
Proof.
  eexists. split; [vm_compute; reflexivity|]. split; [reflexivity|].
  apply resolved_while_in_flight.
  apply (after_reachable story_options
           [CallWriteText ArgEvent Fulfilled; TimeoutFires]).
  vm_compute. reflexivity.
Defined.

(** ** The timer and the state *)

(** [Hook_timing] reads the mounted flag, the state, the two memoized tables,
    the timer and the queue. *)
Lemma Hook_timing_ext (h h' : Hook) :
  mounted h' = mounted h -> state h' = state h ->
  memo_durations h' = memo_durations h ->
  memo_nextStatusStates h' = memo_nextStatusStates h ->
  timeoutId h' = timeoutId h -> queued h' = queued h ->
  Hook_timing h -> Hook_timing h'.
Proof.
  intros Hm Hs Hd Hn Ht Hq [H1 H2 H3 H4].
  constructor; rewrite ?Hm, ?Hs, ?Hd, ?Hn, ?Ht, ?Hq; assumption.
Qed.

Lemma Hook_timing_unmounted (h : Hook) :
  mounted h = false -> timeoutId h = None -> queued h = None -> Hook_timing h.
Proof.
  intros Hm Ht Hq. constructor.
  - intros _. split; assumption.
  - intros t H. rewrite Ht in H. discriminate H.
  - intros s H. rewrite Hq in H. discriminate H.
  - intros H. rewrite Hm in H. discriminate H.
Qed.

(** A run of the effect on a mounted hook with nothing queued leaves the
    timer and the queue as [Hook_timing] says. *)
Lemma effect_timing (h h' : Hook) :
  mounted h = true -> queued h = None ->
  effect h = Some h' -> Hook_timing h'.
Proof.
  intros Hm Hq H. unfold effect in H.
  destruct (narrow (transitionStatus (status (state h)))) as [k0|] eqn:Hs.
  - destruct (narrow_Some _ _ Hs) as [_ Hne].
    destruct (getTransitionStatus _ _ _ _) as [r|] eqn:Hr; [|discriminate H].
    destruct (narrow r) as [k|] eqn:Hk; injection H as <-; constructor; cbn.
    + intros Habs. contradiction.
    + intros t Ht. injection Ht as <-. cbn.
      destruct (narrow_Some _ _ Hk) as [<- _]. auto.
    + intros s Habs. rewrite Hq in Habs. discriminate Habs.
    + intros _ _. left. discriminate.
    + intros Habs. contradiction.
    + intros t Ht. discriminate Ht.
    + intros s _. reflexivity.
    + intros _ _. right. rewrite Hm. discriminate.
  - apply narrow_None in Hs. injection H as <-. constructor; cbn.
    + intros _. auto.
    + intros t Ht. discriminate Ht.
    + intros s _. reflexivity.
    + intros _ Hne. contradiction.
Qed.

Lemma safeSetState_timing (s : UseClipboardState) (h h' : Hook) :
  Hook_ok h -> queued h = None ->
  (mounted h = false -> Hook_timing h) ->
  safeSetState s h = Some h' -> Hook_timing h'.
Proof.
  intros Hok Hq Hun H. destruct (mounted h) eqn:Hm.
  - rewrite safeSetState_effect in H by assumption.
    refine (effect_timing _ h' _ _ H); cbn; assumption.
  - unfold safeSetState in H. rewrite Hm in H. injection H as <-.
    apply Hun. reflexivity.
Qed.

Lemma step_timing (ev : Event) (h h' : Hook) :
  Hook_ok h -> Hook_timing h -> step ev h = Some h' -> Hook_timing h'.
Proof.
  intros Hok Htm Hstep. unfold step in Hstep.
  destruct (queued h) as [action|] eqn:Hq.
  - destruct ev; try discriminate Hstep.
    destruct (ok_queued h Hok action Hq) as [-> Hm].
    pose proof (Hook_ok_update h (state h) (timeoutId h) None (timeouts h) (clipboard h)
                  Hok (or_introl eq_refl) (or_intror eq_refl)) as Hok1.
    refine (safeSetState_timing _ _ h' Hok1 eq_refl _ Hstep).
    cbn. intros Habs. rewrite Hm in Habs. discriminate Habs.
  - destruct ev as [arg w| | |o|]; try discriminate Hstep.
    + destruct (writeText (memo_writeText h) arg w) as [r|] eqn:Hw;
        [|discriminate Hstep].
      match type of Hstep with
      | context [mkHook _ _ _ _ _ _ _ _ _ _ ?log] =>
          pose proof (Hook_ok_update h (state h) (timeoutId h) None
                        (timeouts h) log Hok (or_introl eq_refl) (or_intror eq_refl))
            as Hok1;
          assert (Htm1 : Hook_timing
                           (mkHook (mounted h) (options h) (state h)
                              (memo_hasTimeoutChange h) (memo_durations h)
                              (memo_nextStatusStates h) (memo_writeText h)
                              (timeoutId h) None (timeouts h) log))
            by (apply (Hook_timing_ext h); cbn; auto)
      end.
      destruct (run_setState r) as [action|].
      * refine (safeSetState_timing _ _ h' Hok1 eq_refl _ Hstep).
        intros _. exact Htm1.
      * injection Hstep as <-. exact Htm1.
    + destruct (timeoutId h) as [t|] eqn:Ht; [|discriminate Hstep].
      destruct (timing_timer h Htm t Ht) as (Hm & _).
      pose proof (Hook_ok_update h (state h) None None (timeouts h) (clipboard h)
                    Hok (or_intror eq_refl) (or_intror eq_refl)) as Hok1.
      refine (safeSetState_timing _ _ h' Hok1 eq_refl _ Hstep).
      cbn. intros Habs. rewrite Hm in Habs. discriminate Habs.
    + destruct (mounted h) eqn:Hm; [|discriminate Hstep].
      unfold render in Hstep. cbn [orb] in Hstep.
      destruct (Fingerprint_is (hasTimeoutChange (timeout o)) (memo_hasTimeoutChange h))
        eqn:Hfp; cbn [negb] in Hstep.
      * injection Hstep as <-.
        destruct (useMemos_unchanged o h Hfp) as [Hd Hn].
        apply (Hook_timing_ext h); auto.
      * refine (effect_timing _ h' _ _ Hstep); assumption.
    + destruct (mounted h); [|discriminate Hstep].
      injection Hstep as <-. apply Hook_timing_unmounted; reflexivity.
Qed.

Lemma reachable_timing (h : Hook) : reachable h -> Hook_timing h.
Proof.
  induction 1 as [o h Hm|ev h h' Hr IH Hstep].
  - unfold mount in Hm. refine (effect_timing _ h _ _ Hm); reflexivity.
  - destruct (reachable_ok h Hr) as [Hok _].
    exact (step_timing ev h h' Hok IH Hstep).
Qed.

(** X4.  In every reachable hook: at rest there is no timer and nothing
    queued; a pending timer belongs to a mounted hook in flight, waits a
    strictly positive time, namely the duration of the status
    [getTransitionStatus] gives for the status shown, and has nothing queued
    beside it; and a mounted hook in flight always has a timer pending or the
    default state queued, so it cannot stay in flight for ever. *)
Theorem timer_follows_state (h : Hook) :
  reachable h ->
  (transitionStatus (status (state h)) = exited ->
   timeoutId h = None /\ queued h = None) /\
  (forall t : Timer, timeoutId h = Some t ->
     mounted h = true /\ queued h = None /\
     transitionStatus (status (state h)) <> exited /\
     0 < timer_delay t /\
     timer_delay t = get (memo_durations h) (timer_status t) /\
     getTransitionStatus enough_fuel (transitionStatus (status (state h)))
       (memo_nextStatusStates h) (memo_durations h)
     = Some (of_sequence (timer_status t))) /\
  (mounted h = true -> transitionStatus (status (state h)) <> exited ->
   timeoutId h <> None \/ queued h = Some defaultState).
Proof.
  intros Hr. destruct (reachable_ok h Hr) as [Hok _].
  pose proof (reachable_timing h Hr) as Htm.
  split; [exact (timing_rest h Htm)|]. split.
  - intros t Ht.
    destruct (timing_timer h Htm t Ht) as (Hm & Hq & Hts).
    destruct (ok_timer h Hok t Ht) as (_ & Hd & Hpos).
    repeat split; try assumption.
    intros Hex. destruct (timing_rest h Htm Hex) as [Hnone _].
    rewrite Hnone in Ht. discriminate Ht.
  - intros Hm Hne. destruct (timing_flight h Htm Hm Hne) as [Ht|Hq]; [left; exact Ht|].
    right. destruct (queued h) as [s|] eqn:Hqs; [|contradiction].
    destruct (ok_queued h Hok s Hqs) as [-> _]. reflexivity.
Qed.

Lemma timer_follows_state_witness :
  exists (h : Hook) (t : Timer),
    after sequence_options [CallWriteText ArgEvent Fulfilled; TimeoutFires] = Some h /\
    timeoutId h = Some t /\
    mounted h = true /\ queued h = None /\
    transitionStatus (status (state h)) <> exited /\
    0 < timer_delay t /\
    timer_delay t = get (memo_durations h) (timer_status t) /\
    getTransitionStatus enough_fuel (transitionStatus (status (state h)))
      (memo_nextStatusStates h) (memo_durations h)
    = Some (of_sequence (timer_status t)).
Proof.
  eexists. eexists. split; [vm_compute; reflexivity|]. split; [reflexivity|].
  refine (proj1 (proj2 (timer_follows_state _ _)) _ _).
  - apply (after_reachable sequence_options
             [CallWriteText ArgEvent Fulfilled; TimeoutFires]).
    vm_compute. reflexivity.
  - reflexivity.
Defined.

(** ** Every sequence ends *)

Lemma rank_0 (s : TransitionStatus) : (rank s <= 0)%nat -> s = exited.
Proof. destruct s; cbn; intros H; try lia; reflexivity. Qed.

Lemma elapse_rest (k : nat) (h : Hook) :
  reachable h -> transitionStatus (status (state h)) = exited ->
  elapse k h = Some h.
Proof.
  intros Hr Hex.
  destruct (timing_rest h (reachable_timing h Hr) Hex) as [Ht Hq].
  induction k as [|k IH]; [reflexivity|].
  cbn [elapse]. unfold advance. rewrite Hq, Ht. exact IH.
Qed.

Lemma elapse_completes (k : nat) :
  forall h : Hook,
    reachable h -> mounted h = true ->
    (rank (transitionStatus (status (state h))) <= k)%nat ->
    exists h',
      elapse k h = Some h' /\
      transitionStatus (status (state h')) = exited /\
      timeoutId h' = None /\ queued h' = None /\
      clipboard h' = clipboard h /\
      (transitionStatus (status (state h)) <> exited -> state h' = defaultState) /\
      (transitionStatus (status (state h)) = exited -> h' = h).
Proof.
  induction k as [|k IH]; intros h Hr Hm Hrank.
  - apply rank_0 in Hrank.
    destruct (timing_rest h (reachable_timing h Hr) Hrank) as [Ht Hq].
    exists h. repeat split; auto. intros Hne. contradiction.
  - destruct (reachable_ok h Hr) as [Hok _].
    pose proof (reachable_timing h Hr) as Htm.
    destruct (narrow (transitionStatus (status (state h)))) as [k0|] eqn:Hk0.
    2:{ apply narrow_None in Hk0.
        destruct (timing_rest h Htm Hk0) as [Ht Hq].
        exists h. rewrite (elapse_rest _ h Hr Hk0).
        repeat split; auto. intros Hne. contradiction. }
    destruct (narrow_Some _ _ Hk0) as [_ Hne].
    destruct (queued h) as [s|] eqn:Hq.
    + (* the default state is queued *)
      destruct (ok_queued h Hok s Hq) as [-> _].
      pose proof (Hook_ok_update h (state h) (timeoutId h) None (timeouts h)
                    (clipboard h) Hok (or_introl eq_refl) (or_intror eq_refl)) as Hok1.
      assert (Hstep : step StateUpdate h =
                Some (mkHook (mounted h) (options h) defaultState
                        (memo_hasTimeoutChange h) (memo_durations h)
                        (memo_nextStatusStates h) (memo_writeText h)
                        None None (timeouts h) (clipboard h))).
      { unfold step. rewrite Hq.
        rewrite safeSetState_effect by (try exact Hok1; exact Hm).
        apply effect_exited. reflexivity. }
      pose proof (reachable_step _ _ _ Hr Hstep) as Hr1.
      eexists. cbn [elapse]. unfold advance. rewrite Hq, Hstep.
      rewrite (elapse_rest k _ Hr1 eq_refl).
      repeat split. intros Habs. contradiction.
    + (* the timer fires *)
      destruct (timing_flight h Htm Hm Hne) as [Hsome|Habs]; [|contradiction].
      destruct (timeoutId h) as [t|] eqn:Ht; [clear Hsome|contradiction].
      destruct (timing_timer h Htm t Ht) as (_ & _ & Hskip).
      destruct (ok_timer h Hok t Ht) as (Hn & _).
      pose proof (ok_nextStatusStates h Hok) as Hvar.
      pose proof (Hook_ok_update h (state h) None None (timeouts h) (clipboard h)
                    Hok (or_intror eq_refl) (or_intror eq_refl)) as Hok1.
      set (nx := get (timer_nextStatusStates t) (timer_status t)).
      destruct (safeSetState_ok
                  (mkState None (mkStatusState (copyStatus nx) (transitionStatus nx)))
                  _ Hok1)
        as (h1 & E1 & _ & _ & Hs1 & _ & Hm1 & Hc1 & _).
      cbn in Hs1, Hm1, Hc1. specialize (Hs1 Hm).
      assert (Hstep : step TimeoutFires h = Some h1).
      { unfold step. rewrite Hq, Ht. exact E1. }
      pose proof (reachable_step _ _ _ Hr Hstep) as Hr1.
      assert (Hrank1 : (rank (transitionStatus (status (state h1))) <= k)%nat).
      { rewrite Hs1. cbn. unfold nx. rewrite Hn.
        pose proof (follow_rank _ (timer_status t) Hvar) as Hlt.
        pose proof (getTransitionStatus_rank _ _ _ _ _ Hvar Hskip) as Hle.
        lia. }
      destruct (IH h1 Hr1 (eq_trans Hm1 Hm) Hrank1)
        as (h' & El & Hex & Ht' & Hq' & Hc' & Hfl & Hre).
      exists h'. cbn [elapse]. unfold advance. rewrite Hq, Ht, Hstep.
      split; [exact El|]. split; [exact Hex|]. split; [exact Ht'|].
      split; [exact Hq'|]. split; [congruence|]. split; [|intros Habs; contradiction].
      intros _.
      destruct (narrow (transitionStatus (status (state h1)))) as [k1|] eqn:Hk1.
      * apply Hfl. exact (proj2 (narrow_Some _ _ Hk1)).
      * apply narrow_None in Hk1. rewrite (Hre Hk1), Hs1.
        rewrite Hs1 in Hk1. cbn in Hk1. unfold defaultState.
        unfold nx in Hk1 |- *. rewrite Hn in Hk1 |- *.
        rewrite Hk1, (variant_exited_idle _ _ Hvar Hk1). reflexivity.
Qed.

(** X6.  Every sequence ends.  From any reachable mounted hook, once the
    queued update is applied and the pending timers have fired, at most
    three such events in all, the hook is at rest with no timer and nothing
    queued; if it was in flight its state is the default state again,
    [{error: null, copyStatus: 'idle', transitionStatus: 'exited'}]; and the
    clipboard has not been written meanwhile. *)
Theorem sequence_completes (h : Hook) :
  reachable h -> mounted h = true ->
  exists h',
    elapse 3 h = Some h' /\
    transitionStatus (status (state h')) = exited /\
    timeoutId h' = None /\ queued h' = None /\
    clipboard h' = clipboard h /\
    (transitionStatus (status (state h)) <> exited -> state h' = defaultState) /\
    (transitionStatus (status (state h)) = exited -> h' = h).
Proof.
  intros Hr Hm. apply elapse_completes; [exact Hr|exact Hm|].
  destruct (transitionStatus (status (state h))); cbn; lia.
Qed.

Lemma sequence_completes_witness :
  exists h h' : Hook,
    after (mkOptions (Some (TextString "hi"))
             (Some (TimeoutSequence (mkPerStatus (Some 300) (Some 2000) (Some 250)))))
      [CallWriteText ArgEvent Fulfilled] = Some h /\
    transitionStatus (status (state h)) = entering /\
    elapse 3 h = Some h' /\
    transitionStatus (status (state h')) = exited /\
    timeoutId h' = None /\ queued h' = None /\
    clipboard h' = clipboard h /\
    (transitionStatus (status (state h)) <> exited -> state h' = defaultState) /\
    (transitionStatus (status (state h)) = exited -> h' = h).
Proof.
  eexists.
  match goal with
  | |- exists h', ?a = Some ?h /\ _ =>
      assert (Ha : a = Some h) by (vm_compute; reflexivity)
  end.
  destruct (sequence_completes _ (after_reachable _ _ _ Ha) eq_refl) as (h' & H).
  exists h'. split; [exact Ha|]. split; [reflexivity|]. exact H.
Defined.

(** ** After the component has unmounted *)

Lemma unmounted_idle (h : Hook) :
  reachable h -> mounted h = false -> timeoutId h = None /\ queued h = None.
Proof.
  intros Hr Hm. destruct (reachable_ok h Hr) as [Hok _].
  pose proof (reachable_timing h Hr) as Htm. split.
  - destruct (timeoutId h) as [t|] eqn:Ht; [|reflexivity].
    destruct (timing_timer h Htm t Ht) as (Hmt & _). congruence.
  - destruct (queued h) as [s|] eqn:Hq; [|reflexivity].
    destruct (ok_queued h Hok s Hq) as (_ & Hmt). congruence.
Qed.

Lemma unmounted_step (ev : Event) (h h' : Hook) :
  reachable h -> mounted h = false -> step ev h = Some h' ->
  mounted h' = false /\ state h' = state h /\
  (exists arg w, ev = CallWriteText arg w).
Proof.
  intros Hr Hm Hstep. destruct (unmounted_idle h Hr Hm) as [Ht Hq].
  unfold step in Hstep. rewrite Hq in Hstep.
  destruct ev as [arg w| | |o|]; try discriminate Hstep.
  - destruct (writeText (memo_writeText h) arg w) as [r|]; [|discriminate Hstep].
    unfold safeSetState in Hstep. cbn [mounted] in Hstep. rewrite Hm in Hstep.
    destruct (run_setState r); injection Hstep as <-; cbn;
      (split; [first [exact Hm|reflexivity]|]); (split; [reflexivity|]);
      exists arg, w; reflexivity.
  - rewrite Ht in Hstep. discriminate Hstep.
  - rewrite Hm in Hstep. discriminate Hstep.
  - rewrite Hm in Hstep. discriminate Hstep.
Qed.

(** X5.  Unmounting clears the pending timer, and nothing that happens to
    an unmounted hook updates its state or sets a timer: the only events
    left are calls of [writeText], which may still write the clipboard. *)
Theorem no_update_after_unmount (h : Hook) (evs : list Event) :
  reachable h -> mounted h = false ->
  timeoutId h = None /\ queued h = None /\
  forall h' : Hook, run evs h = Some h' ->
    state h' = state h /\ timeoutId h' = None /\ queued h' = None /\
    mounted h' = false /\
    Forall (fun ev => exists arg w, ev = CallWriteText arg w) evs.
Proof.
  intros Hr Hm. destruct (unmounted_idle h Hr Hm) as [Ht Hq].
  split; [exact Ht|]. split; [exact Hq|].
  revert h Hr Hm Ht Hq.
  induction evs as [|ev evs IH]; intros h Hr Hm Ht Hq h' Hrun; cbn in Hrun.
  - injection Hrun as <-. repeat split; auto.
  - destruct (step ev h) as [h1|] eqn:Hstep; [|discriminate Hrun].
    destruct (unmounted_step ev h h1 Hr Hm Hstep) as (Hm1 & Hs1 & Hev).
    pose proof (reachable_step _ _ _ Hr Hstep) as Hr1.
    destruct (unmounted_idle h1 Hr1 Hm1) as [Ht1 Hq1].
    destruct (IH h1 Hr1 Hm1 Ht1 Hq1 h' Hrun) as (Hs & Ht' & Hq' & Hm' & Hall).
    repeat split; auto. congruence.
Qed.

Lemma no_update_after_unmount_witness :
  exists h : Hook,
    after simple_options [CallWriteText ArgEvent Fulfilled; Unmount] = Some h /\
    transitionStatus (status (state h)) = entered /\
    timeoutId h = None /\ queued h = None /\
    forall h' : Hook,
      run [CallWriteText ArgEvent (RejectedWith "NotAllowedError")] h = Some h' ->
      state h' = state h /\ timeoutId h' = None /\ queued h' = None /\
      mounted h' = false /\
      Forall (fun ev => exists arg w, ev = CallWriteText arg w)
        [CallWriteText ArgEvent (RejectedWith "NotAllowedError")].
Proof.
  eexists. split; [vm_compute; reflexivity|]. split; [reflexivity|].
  apply no_update_after_unmount.
  - apply (after_reachable simple_options
             [CallWriteText ArgEvent Fulfilled; Unmount]).
    vm_compute. reflexivity.
  - reflexivity.
Defined.

(** ** What an event leaves alone *)

(** Only a render with other options touches the options and the memoized
    values. *)
Lemma step_frame (ev : Event) (h h' : Hook) :
  Hook_ok h -> no_rerender ev -> step ev h = Some h' ->
  options h' = options h /\ memo_durations h' = memo_durations h /\
  memo_nextStatusStates h' = memo_nextStatusStates h /\
  memo_writeText h' = memo_writeText h.
Proof.
  intros Hok Hev Hstep. unfold step in Hstep.
  destruct (queued h) as [action|] eqn:Hq.
  - destruct ev; try discriminate Hstep.
    pose proof (Hook_ok_update h (state h) (timeoutId h) None (timeouts h) (clipboard h)
                  Hok (or_introl eq_refl) (or_intror eq_refl)) as Hok1.
    destruct (safeSetState_ok action _ Hok1)
      as (h1 & E1 & _ & _ & _ & Ho & _ & _ & Hw & Hd & Hn).
    rewrite E1 in Hstep. injection Hstep as <-. auto.
  - destruct ev as [arg w| | |o|]; try discriminate Hstep; try contradiction.
    + destruct (writeText (memo_writeText h) arg w) as [r|] eqn:Hw;
        [|discriminate Hstep].
      match type of Hstep with
      | context [mkHook _ _ _ _ _ _ _ _ _ _ ?log] =>
          pose proof (Hook_ok_update h (state h) (timeoutId h) None
                        (timeouts h) log Hok (or_introl eq_refl) (or_intror eq_refl))
            as Hok1
      end.
      destruct (run_setState r) as [action|].
      * destruct (safeSetState_ok action _ Hok1)
          as (h1 & E1 & _ & _ & _ & Ho & _ & _ & Hcl & Hd & Hn).
        rewrite E1 in Hstep. injection Hstep as <-. auto.
      * injection Hstep as <-. auto.
    + destruct (timeoutId h) as [t|] eqn:Ht; [|discriminate Hstep].
      pose proof (Hook_ok_update h (state h) None None (timeouts h) (clipboard h)
                    Hok (or_intror eq_refl) (or_intror eq_refl)) as Hok1.
      match type of Hstep with
      | safeSetState ?a _ = _ =>
          destruct (safeSetState_ok a _ Hok1)
            as (h1 & E1 & _ & _ & _ & Ho & _ & _ & Hcl & Hd & Hn)
      end.
      rewrite E1 in Hstep. injection Hstep as <-. auto.
    + destruct (mounted h); [|discriminate Hstep].
      injection Hstep as <-. auto.
Qed.

(** Only a call of [writeText] past its guard writes the clipboard, and it
    writes one text, which is not empty. *)
Lemma step_clipboard (ev : Event) (h h' : Hook) :
  Hook_ok h -> step ev h = Some h' ->
  clipboard h' = clipboard h \/
  exists arg w t,
    ev = CallWriteText arg w /\ t <> EmptyString /\
    t = clipboardText arg (text (options h)) /\
    transitionStatus (status (closure_state (memo_writeText h))) = exited /\
    clipboard h' = t :: clipboard h.
Proof.
  intros Hok Hstep.
  destruct (queued h) as [action|] eqn:Hq.
  - unfold step in Hstep. rewrite Hq in Hstep.
    destruct ev; try discriminate Hstep.
    pose proof (Hook_ok_update h (state h) (timeoutId h) None (timeouts h) (clipboard h)
                  Hok (or_introl eq_refl) (or_intror eq_refl)) as Hok1.
    destruct (safeSetState_ok action _ Hok1) as (h1 & E1 & _ & _ & _ & _ & _ & Hc & _).
    rewrite E1 in Hstep. injection Hstep as <-. left. exact Hc.
  - destruct ev as [arg w| | |o|].
    + destruct (writeText (memo_writeText h) arg w) as [r|] eqn:Hw.
      2:{ unfold step in Hstep. rewrite Hq, Hw in Hstep. discriminate Hstep. }
      destruct (step_writeText h arg w r Hok Hq Hw) as (h1 & E1 & _ & Hc & _).
      rewrite E1 in Hstep. injection Hstep as <-.
      destruct (run_written r) as [t|] eqn:Ht; [|left; exact Hc].
      destruct (writeText_written _ _ _ _ _ Hw Ht) as (Hts & Htext & Hfull).
      right. exists arg, w, t. rewrite <- (ok_closure_text h Hok). auto.
    + unfold step in Hstep. rewrite Hq in Hstep.
      destruct (timeoutId h) as [t|] eqn:Ht; [|discriminate Hstep].
      pose proof (Hook_ok_update h (state h) None None (timeouts h) (clipboard h)
                    Hok (or_intror eq_refl) (or_intror eq_refl)) as Hok1.
      match type of Hstep with
      | safeSetState ?a _ = _ =>
          destruct (safeSetState_ok a _ Hok1) as (h1 & E1 & _ & _ & _ & _ & _ & Hc & _)
      end.
      rewrite E1 in Hstep. injection Hstep as <-. left. exact Hc.
    + unfold step in Hstep. rewrite Hq in Hstep. discriminate Hstep.
    + unfold step in Hstep. rewrite Hq in Hstep.
      destruct (mounted h); [|discriminate Hstep].
      destruct (render_ok o false h Hok) as (h1 & E1 & _ & _ & _ & _ & Hc).
      rewrite E1 in Hstep. injection Hstep as <-. left. exact Hc.
    + unfold step in Hstep. rewrite Hq in Hstep.
      destruct (mounted h); [|discriminate Hstep].
      injection Hstep as <-. left. reflexivity.
Qed.

(** X14.  The hook never hands an empty text to
    [navigator.clipboard.writeText]. *)
Theorem clipboard_never_empty (h : Hook) :
  reachable h -> Forall (fun t => t <> EmptyString) (clipboard h).
Proof.
  induction 1 as [o h Hm|ev h h' Hr IH Hstep].
  - rewrite mount_eq in Hm. injection Hm as <-. constructor.
  - destruct (reachable_ok h Hr) as [Hok _].
    destruct (step_clipboard ev h h' Hok Hstep)
      as [->|(arg & w & t & _ & Hfull & _ & _ & ->)]; [exact IH|].
    constructor; assumption.
Qed.

Lemma clipboard_never_empty_witness :
  exists h : Hook,
    after (mkOptions (Some (TextNumber 0)) (Some (TimeoutNumber 2000)))
      [CallWriteText (ArgText (TextString EmptyString)) Fulfilled;
       CallWriteText ArgEvent Fulfilled] = Some h /\
    clipboard h = ["0"] /\
    Forall (fun t => t <> EmptyString) (clipboard h).
Proof.
  eexists. split; [vm_compute; reflexivity|]. split; [reflexivity|].
  apply clipboard_never_empty.
  apply (after_reachable (mkOptions (Some (TextNumber 0)) (Some (TimeoutNumber 2000)))
           [CallWriteText (ArgText (TextString EmptyString)) Fulfilled;
            CallWriteText ArgEvent Fulfilled]).
  vm_compute. reflexivity.
Defined.

(** X12.  The guard follows the captured state, not the session: as long
    as the callback in use captured a state in flight, neither calls of
    [writeText] nor the timers and updates that bring the session back to
    rest make it write the clipboard; only a render that recreates the
    callback does.  (A callback recreated in flight, when [options.text]
    changes, is in this situation.) *)
Theorem stale_guard_blocks (evs : list Event) :
  forall h h' : Hook,
    reachable h ->
    transitionStatus (status (closure_state (memo_writeText h))) <> exited ->
    Forall no_rerender evs ->
    run evs h = Some h' ->
    clipboard h' = clipboard h /\ memo_writeText h' = memo_writeText h.
Proof.
  induction evs as [|ev evs IH]; intros h h' Hr Hstale Hall Hrun; cbn in Hrun.
  - injection Hrun as <-. split; reflexivity.
  - destruct (step ev h) as [h1|] eqn:Hstep; [|discriminate Hrun].
    destruct (reachable_ok h Hr) as [Hok _].
    inversion Hall as [|ev' evs' Hev Hrest]; subst.
    destruct (step_frame ev h h1 Hok Hev Hstep) as (_ & _ & _ & Hw).
    assert (Hc : clipboard h1 = clipboard h).
    { destruct (step_clipboard ev h h1 Hok Hstep)
        as [Hc|(arg & w & t & _ & _ & _ & Hts & _)]; [exact Hc|contradiction]. }
    destruct (IH h1 h' (reachable_step _ _ _ Hr Hstep)) as [Hc' Hw'];
      [rewrite Hw; exact Hstale|exact Hrest|exact Hrun|].
    split; congruence.
Qed.

Lemma stale_guard_blocks_witness :
  exists h h' : Hook,
    after simple_options
      [CallWriteText ArgEvent Fulfilled;
       Rerender (mkOptions (Some (TextString "ho")) (Some (TimeoutNumber 2000)))]
      = Some h /\
    run [TimeoutFires; CallWriteText ArgEvent Fulfilled] h = Some h' /\
    state h' = defaultState /\
    clipboard h' = clipboard h /\ memo_writeText h' = memo_writeText h.
Proof.
  eexists. eexists.
  split; [vm_compute; reflexivity|].
  split; [vm_compute; reflexivity|].
  split; [reflexivity|].
  eapply (stale_guard_blocks [TimeoutFires; CallWriteText ArgEvent Fulfilled]).
  - apply (after_reachable simple_options
      [CallWriteText ArgEvent Fulfilled;
       Rerender (mkOptions (Some (TextString "ho")) (Some (TimeoutNumber 2000)))]).
    vm_compute. reflexivity.
  - discriminate.
  - repeat constructor.
  - vm_compute. reflexivity.
Defined.

(** ** A number as timeout *)

Lemma not_object_fingerprint (c1 c2 : option Timeout) :
  not_object c1 -> not_object c2 ->
  hasTimeoutChange c1 = hasTimeoutChange c2 -> c1 = c2.
Proof.
  destruct c1 as [[m1|t1]|], c2 as [[m2|t2]|]; cbn; intros H1 H2 Heq;
    try contradiction; try discriminate Heq; [|reflexivity].
  injection Heq as ->. reflexivity.
Qed.

Lemma not_object_first_status (t : option Timeout) (r : TransitionStatus) :
  not_object t ->
  getTransitionStatus enough_fuel entering (nextStatusStates t) (durations t) = Some r ->
  r = entered \/ r = exited.
Proof.
  destruct t as [[m|t]|]; cbn [not_object]; intros Hno; try contradiction;
    unfold getTransitionStatus, enough_fuel; cbn; split_leb;
      intros Hr; injection Hr as <-; auto.
Qed.

Lemma not_object_next_status (t : option Timeout) (k : SequenceStatus) :
  not_object t ->
  transitionStatus (get (nextStatusStates t) k) = entered \/
  transitionStatus (get (nextStatusStates t) k) = exited.
Proof.
  destruct t as [[m|t]|]; cbn [not_object]; intros Hno; try contradiction;
    destruct k; cbn; auto.
Qed.

(** With numeric timeouts the memoized tables are those of the current
    options, and the state shows [entered] or [exited]. *)
Lemma numeric_step (ev : Event) (h h' : Hook) :
  reachable h -> numeric_event ev -> step ev h = Some h' ->
  not_object (timeout (options h)) ->
  memo_durations h = durations (timeout (options h)) ->
  memo_nextStatusStates h = nextStatusStates (timeout (options h)) ->
  (transitionStatus (status (state h)) = entered \/
   transitionStatus (status (state h)) = exited) ->
  not_object (timeout (options h')) /\
  memo_durations h' = durations (timeout (options h')) /\
  memo_nextStatusStates h' = nextStatusStates (timeout (options h')) /\
  (transitionStatus (status (state h')) = entered \/
   transitionStatus (status (state h')) = exited).
Proof.
  intros Hr Hev Hstep Hno Hd Hn Hts. destruct (reachable_ok h Hr) as [Hok _].
  assert (Hstate : transitionStatus (status (state h')) = entered \/
                   transitionStatus (status (state h')) = exited).
  { destruct (step_state_cases ev h h' Hok Hstep)
      as [->|[->|[(e & ->)|[(ts & k & Hk & Hg & ->)|(k & ->)]]]]; cbn; auto.
    - rewrite Hn, Hd in Hg. exact (not_object_first_status _ _ Hno Hg).
    - rewrite Hn. exact (not_object_next_status _ k Hno). }
  destruct ev as [arg w| | |o|].
  1,2,3,5:
    match type of Hstep with
    | step ?e _ = _ =>
        destruct (step_frame e h h' Hok I Hstep) as (Ho & Hd' & Hn' & _)
    end;
    rewrite Ho, Hd', Hn'; auto.
  cbn in Hev. unfold step in Hstep.
  destruct (queued h); [discriminate Hstep|].
  destruct (mounted h); [|discriminate Hstep].
  unfold render in Hstep. cbn [orb] in Hstep.
  destruct (Fingerprint_is (hasTimeoutChange (timeout o)) (memo_hasTimeoutChange h))
    eqn:Hfp; cbn [negb] in Hstep.
  - injection Hstep as <-.
    destruct (useMemos_unchanged o h Hfp) as [Hd' Hn'].
    apply Fingerprint_is_eq in Hfp. rewrite (ok_fingerprint h Hok) in Hfp.
    apply (not_object_fingerprint _ _ Hev Hno) in Hfp.
    rewrite Hd', Hn'. cbn [options useMemos]. rewrite Hfp. auto.
  - destruct (useMemos_changed o h Hfp) as (Hd' & Hn' & _).
    destruct (effect_frame _ _ Hstep) as (_ & Ho & _ & _ & Hd'' & Hn'' & _).
    rewrite Ho, Hd'', Hn'', Hd', Hn'. cbn [options useMemos]. auto.
Qed.

(** X7.  As long as the timeout is a number or absent, at mount and in
    every later render, the hook only ever shows [entered] or [exited],
    never [entering] or [exiting], and the memoized duration table and
    next-status map are those of the current options, never stale. *)
Theorem numeric_timeout_shows_entered_only (evs : list Event) :
  forall (o : UseClipboardOptions) (h : Hook),
    not_object (timeout o) -> Forall numeric_event evs ->
    after o evs = Some h ->
    (transitionStatus (status (state h)) = entered \/
     transitionStatus (status (state h)) = exited) /\
    memo_durations h = durations (timeout (options h)) /\
    memo_nextStatusStates h = nextStatusStates (timeout (options h)).
Proof.
  intros o h Hno Hall Hafter. unfold after in Hafter.
  rewrite mount_eq in Hafter.
  match type of Hafter with
  | run evs ?h0 = _ =>
      assert (Hr0 : reachable h0) by (apply (reachable_mount o); apply mount_eq);
      assert (Hinv : not_object (timeout (options h0)) /\
                     memo_durations h0 = durations (timeout (options h0)) /\
                     memo_nextStatusStates h0 = nextStatusStates (timeout (options h0)) /\
                     (transitionStatus (status (state h0)) = entered \/
                      transitionStatus (status (state h0)) = exited))
        by (cbn; auto);
      generalize dependent h0
  end.
  induction evs as [|ev evs IH]; intros h0 Hrun Hr0 (H1 & H2 & H3 & H4); cbn in Hrun.
  - injection Hrun as <-. auto.
  - destruct (step ev h0) as [h1|] eqn:Hstep; [|discriminate Hrun].
    inversion Hall as [|ev' evs' Hev Hrest]; subst.
    apply (IH Hrest h1 Hrun (reachable_step _ _ _ Hr0 Hstep)).
    exact (numeric_step ev h0 h1 Hr0 Hev Hstep H1 H2 H3 H4).
Qed.

Lemma numeric_timeout_shows_entered_only_witness :
  exists h : Hook,
    after simple_options
      [CallWriteText ArgEvent Fulfilled;
       Rerender (mkOptions (Some (TextString "hi")) None)] = Some h /\
    (transitionStatus (status (state h)) = entered \/
     transitionStatus (status (state h)) = exited) /\
    memo_durations h = durations (timeout (options h)) /\
    memo_nextStatusStates h = nextStatusStates (timeout (options h)).
Proof.
  eexists. split; [vm_compute; reflexivity|].
  apply (numeric_timeout_shows_entered_only
           [CallWriteText ArgEvent Fulfilled;
            Rerender (mkOptions (Some (TextString "hi")) None)] simple_options).
  - exact I.
  - repeat constructor.
  - vm_compute. reflexivity.
Defined.

(** ** What a call past the guard writes and starts *)

(** X9.  A number is never an empty text, not even 0.  In any attainable
    session, a call of [writeText] that is past its guard (its callback
    captured the phase [exited]) and is given a safe integer hands the
    decimal form of that number to the clipboard, and so does a call with an
    event or with no argument when the configured text is that number;
    whether the write settles at once or stays pending. *)
Theorem numeric_text_is_written (s : Session) (m : Z) :
  attainable s -> queued (hook s) = None ->
  transitionStatus (status (closure_state (memo_writeText (hook s)))) = exited ->
  safe_integer m ->
  Number_toString m <> EmptyString /\
  forall arg : WriteTextArg,
    arg = ArgText (TextNumber m) \/
    (text (options (hook s)) = Some (TextNumber m) /\
     (arg = ArgEvent \/ arg = ArgUndefined)) ->
    (exists s', moment (Call arg) s = Some s' /\
       clipboard (hook s') = Number_toString m :: clipboard (hook s)) /\
    (forall w : Settled,
       exists s', moment (Atomic (CallWriteText arg w)) s = Some s' /\
         clipboard (hook s') = Number_toString m :: clipboard (hook s)).
Proof.
  intros Ha Hq Hc _. pose proof (Number_toString_nonempty m) as Hfull.
  split; [exact Hfull|]. intros arg Harg.
  destruct (attainable_ok s Ha) as [Hok _].
  assert (Hct : clipboardText arg (text (options (hook s))) = Number_toString m).
  { destruct Harg as [-> | [Htext [-> | ->]]]; [reflexivity| |];
      rewrite Htext; cbn; apply or_else_empty. }
  rewrite <- Hct in Hfull |- *. split.
  - destruct (call_past_guard s arg Hok Hq Hc Hfull) as (s' & E & Hcl & _).
    exists s'. auto.
  - intros w.
    destruct (past_guard_writes (hook s) arg w Hok Hq Hc Hfull) as (h' & E & Hcl).
    exists (mkSession h' (pending s)). cbn. rewrite E. auto.
Qed.

Lemma numeric_text_is_written_witness :
  exists s : Session,
    after_moments (mkOptions (Some (TextNumber 0)) (Some (TimeoutNumber 2000)))
      [Atomic (CallWriteText ArgEvent Fulfilled); Atomic TimeoutFires] = Some s /\
    clipboard (hook s) = ["0"] /\
    Number_toString 0 <> EmptyString /\
    forall arg : WriteTextArg,
      arg = ArgText (TextNumber 0) \/
      (text (options (hook s)) = Some (TextNumber 0) /\
       (arg = ArgEvent \/ arg = ArgUndefined)) ->
      (exists s', moment (Call arg) s = Some s' /\
         clipboard (hook s') = Number_toString 0 :: clipboard (hook s)) /\
      (forall w : Settled,
         exists s', moment (Atomic (CallWriteText arg w)) s = Some s' /\
           clipboard (hook s') = Number_toString 0 :: clipboard (hook s)).
Proof.
  eexists. split; [vm_compute; reflexivity|]. split; [reflexivity|].
  apply numeric_text_is_written.
  - apply (after_moments_attainable
             (mkOptions (Some (TextNumber 0)) (Some (TimeoutNumber 2000)))
             [Atomic (CallWriteText ArgEvent Fulfilled); Atomic TimeoutFires]).
    vm_compute. reflexivity.
  - reflexivity.
  - reflexivity.
  - unfold safe_integer. cbn. lia.
Defined.

(** X11.  A call of [writeText] that is past its guard (its callback
    captured the phase [exited]), on a mounted hook with no update queued
    and a text to write, whose write succeeds before anything else happens,
    starts the sequence at the first status of positive duration, whatever
    phase the hook shows: when [getTransitionStatus] gives the status [r]
    in flight for [entering], the text is written, the state becomes
    [{error: null, copyStatus: 'resolved', transitionStatus: r}], and the
    one timer then pending is new and waits [durations[r]]. *)
Theorem successful_write_starts_sequence (s : Session) (arg : WriteTextArg)
    (r : TransitionStatus) (k : SequenceStatus) :
  attainable s -> mounted (hook s) = true -> queued (hook s) = None ->
  transitionStatus (status (closure_state (memo_writeText (hook s)))) = exited ->
  resolves_safely arg (text (options (hook s))) ->
  clipboardText arg (text (options (hook s))) <> EmptyString ->
  getTransitionStatus enough_fuel entering (memo_nextStatusStates (hook s))
    (memo_durations (hook s)) = Some r ->
  narrow r = Some k ->
  exists s',
    moment (Atomic (CallWriteText arg Fulfilled)) s = Some s' /\
    state (hook s') = mkState None (mkStatusState resolved r) /\
    timeoutId (hook s') =
      Some (mkTimer (timeouts (hook s)) (get (memo_durations (hook s)) k) k
              (memo_nextStatusStates (hook s))) /\
    timeouts (hook s') = S (timeouts (hook s)) /\
    clipboard (hook s') =
      clipboardText arg (text (options (hook s))) :: clipboard (hook s) /\
    pending s' = pending s.
Proof.
  intros Ha Hm Hq Hc _ Hfull Hg Hk.
  destruct (attainable_ok s Ha) as [Hok _].
  destruct s as [h p]. cbn [hook pending] in *.
  assert (Hw : writeText (memo_writeText h) arg Fulfilled =
               Some (mkRun (Some (clipboardText arg (text (options h))))
                       (Some (mkState None (mkStatusState resolved r))) Fulfilled)).
  { unfold writeText. rewrite Hc. cbn [narrow nextStatuses].
    rewrite (ok_closure_text h Hok).
    destruct (String.eqb_spec (clipboardText arg (text (options h))) EmptyString)
      as [Habs|_]; [contradiction|].
    rewrite (ok_closure_nextStatusStates h Hok), (ok_closure_durations h Hok), Hg, Hk.
    reflexivity. }
  destruct (step_writeText h arg Fulfilled _ Hok Hq Hw)
    as (h' & Hstep & _ & Hlog & _ & Hset & _).
  cbn [run_written run_setState] in Hlog, Hset.
  destruct (Hset _ eq_refl Hm) as [Hs Heff].
  exists (mkSession h' p). cbn [moment hook pending]. rewrite Hstep.
  split; [reflexivity|]. split; [exact Hs|].
  assert (Hobs : observable (memo_durations h) r).
  { destruct (loop_first_observable _ _ _ _ 0 _ (Z.le_refl 0) Hg) as (j & _ & Ho & _).
    exact Ho. }
  unfold effect in Heff.
  cbn [state status transitionStatus memo_nextStatusStates memo_durations] in Heff.
  rewrite Hk in Heff.
  pose proof (loop_observable (memo_nextStatusStates h) (memo_durations h) 2 r Hobs)
    as Hidem.
  change (getTransitionStatus enough_fuel r (memo_nextStatusStates h)
            (memo_durations h) = Some r) in Hidem.
  rewrite Hidem, Hk in Heff. injection Heff as <-. cbn.
  repeat split. exact Hlog.
Qed.

Lemma successful_write_starts_sequence_witness :
  exists s s' : Session,
    after_moments story_options [Atomic (CallWriteText ArgEvent Fulfilled)] = Some s /\
    transitionStatus (status (state (hook s))) = entered /\
    moment (Atomic (CallWriteText ArgEvent Fulfilled)) s = Some s' /\
    state (hook s') = mkState None (mkStatusState resolved entered) /\
    timeoutId (hook s') =
      Some (mkTimer (timeouts (hook s)) (get (memo_durations (hook s)) seq_entered)
              seq_entered (memo_nextStatusStates (hook s))) /\
    timeouts (hook s') = S (timeouts (hook s)) /\
    clipboard (hook s') =
      clipboardText ArgEvent (text (options (hook s))) :: clipboard (hook s) /\
    pending s' = pending s.
Proof.
  eexists.
  match goal with
  | |- exists s', ?a = Some ?s /\ _ =>
      assert (Ha : a = Some s) by (vm_compute; reflexivity)
  end.
  destruct (successful_write_starts_sequence _ ArgEvent entered seq_entered
              (after_moments_attainable _ _ _ Ha)) as (s' & H);
    [reflexivity|reflexivity|reflexivity|exact I|discriminate
    |reflexivity|reflexivity|].
  exists s'. split; [exact Ha|]. split; [reflexivity|]. exact H.
Defined.

(** ** A status of no duration at the start *)

Lemma variant_never_entering (n : NextStatusStates) (k : SequenceStatus) :
  variant n -> transitionStatus (get n k) <> entering.
Proof. intros [-> | ->]; destruct k; discriminate. Qed.

(** X8.  With the options of the mount, that is with no render bringing
    other options, the memoized duration table stays that of the options,
    and [entering] is shown only when its duration is strictly positive: a
    write never shows a zero-length [entering]. *)
Theorem entering_shown_only_if_positive (evs : list Event) :
  forall (o : UseClipboardOptions) (h : Hook),
    Forall no_rerender evs -> after o evs = Some h ->
    memo_durations h = durations (timeout o) /\
    (transitionStatus (status (state h)) = entering ->
     0 < on_entering (durations (timeout o))).
Proof.
  intros o h Hall Hafter. unfold after in Hafter. rewrite mount_eq in Hafter.
  match type of Hafter with
  | run evs ?h0 = _ =>
      assert (Hr0 : reachable h0) by (apply (reachable_mount o); apply mount_eq);
      assert (Hinv : memo_durations h0 = durations (timeout o) /\
                     (transitionStatus (status (state h0)) = entering ->
                      0 < on_entering (durations (timeout o))))
        by (cbn; split; [reflexivity|discriminate]);
      generalize dependent h0
  end.
  induction evs as [|ev evs IH]; intros h0 Hrun Hr0 (H1 & H2); cbn in Hrun.
  - injection Hrun as <-. auto.
  - destruct (step ev h0) as [h1|] eqn:Hstep; [|discriminate Hrun].
    inversion Hall as [|ev' evs' Hev Hrest]; subst.
    destruct (reachable_ok h0 Hr0) as [Hok _].
    destruct (step_frame ev h0 h1 Hok Hev Hstep) as (_ & Hd & _).
    apply (IH Hrest h1 Hrun (reachable_step _ _ _ Hr0 Hstep)).
    split; [congruence|].
    destruct (step_state_cases ev h0 h1 Hok Hstep)
      as [->|[->|[(e & ->)|[(ts & k & Hk & Hg & ->)|(k & ->)]]]]; cbn.
    + exact H2.
    + discriminate.
    + discriminate.
    + intros ->.
      destruct (loop_first_observable _ _ _ _ 0 _ (Z.le_refl 0) Hg) as (j & _ & Ho & _).
      unfold observable in Ho. cbn in Ho. rewrite H1 in Ho. exact Ho.
    + intros Habs. exfalso.
      exact (variant_never_entering _ k (ok_nextStatusStates h0 Hok) Habs).
Qed.

Lemma entering_shown_only_if_positive_witness :
  exists h : Hook,
    after (mkOptions (Some (TextString "hi"))
             (Some (TimeoutSequence (mkPerStatus (Some 300) (Some 2000) (Some 250)))))
      [CallWriteText ArgEvent Fulfilled] = Some h /\
    transitionStatus (status (state h)) = entering /\
    memo_durations h = mkPerStatus 300 2000 250 /\
    (transitionStatus (status (state h)) = entering -> 0 < 300).
Proof.
  eexists. split; [vm_compute; reflexivity|]. split; [reflexivity|].
  apply (entering_shown_only_if_positive [CallWriteText ArgEvent Fulfilled]
           (mkOptions (Some (TextString "hi"))
              (Some (TimeoutSequence (mkPerStatus (Some 300) (Some 2000) (Some 250)))))).
  - repeat constructor.
  - vm_compute. reflexivity.
Defined.

(** ** The stories' indicators *)

(** X13.  On every reachable hook: the button of the Simple and Read
    Clipboard stories reads [copied] exactly while the sequence is in
    flight; the check mark of the Sequence Clipboard story shows exactly in
    [entering] and [entered]; and its tooltip reads [copied] while in flight
    and also after a rejected write. *)
Theorem story_indicators (h : Hook) :
  reachable h ->
  (SimpleClipboard_label (status (state h)) = "copied" <->
   transitionStatus (status (state h)) <> exited) /\
  (SequenceClipboard_isCopied (status (state h)) = true <->
   transitionStatus (status (state h)) = entering \/
   transitionStatus (status (state h)) = entered) /\
  (SequenceClipboard_label (status (state h)) = "copied" <->
   transitionStatus (status (state h)) <> exited \/
   copyStatus (status (state h)) = rejected).
Proof.
  intros Hr.
  unfold SimpleClipboard_label, SequenceClipboard_isCopied, SequenceClipboard_label.
  destruct (reachable_state_forms h Hr) as [->|[(e & ->)|(ts & Hne & ->)]]; cbn.
  - repeat split; intros H; try discriminate H.
    + contradiction H. reflexivity.
    + destruct H as [H|H]; discriminate H.
    + destruct H as [H|H]; [contradiction H; reflexivity|discriminate H].
  - repeat split; intros H; try discriminate H; try reflexivity.
    + contradiction H. reflexivity.
    + destruct H as [H|H]; discriminate H.
    + right. reflexivity.
  - destruct ts; try (contradiction Hne; reflexivity); cbn;
      repeat split; intros H; try discriminate H; try reflexivity; auto;
        try (left; discriminate); destruct H as [H|H]; discriminate H.
Qed.

Lemma story_indicators_witness :
  exists h : Hook,
    after story_options [CallWriteText ArgEvent (RejectedWith "NotAllowedError")]
      = Some h /\
    SequenceClipboard_label (status (state h)) = "copied" /\
    ((SimpleClipboard_label (status (state h)) = "copied" <->
      transitionStatus (status (state h)) <> exited) /\
     (SequenceClipboard_isCopied (status (state h)) = true <->
      transitionStatus (status (state h)) = entering \/
      transitionStatus (status (state h)) = entered) /\
     (SequenceClipboard_label (status (state h)) = "copied" <->
      transitionStatus (status (state h)) <> exited \/
      copyStatus (status (state h)) = rejected)).
Proof.
  eexists. split; [vm_compute; reflexivity|]. split; [reflexivity|].
  apply story_indicators.
  apply (after_reachable story_options
           [CallWriteText ArgEvent (RejectedWith "NotAllowedError")]).
  vm_compute. reflexivity.
Defined.
